(** * rollup_cost_profiler: a shallow embedding of [app.py]

    The script estimates the gas and fee cost of batching transactions on a
    rollup.  Its arithmetic mixes Python's unbounded integers with binary64
    floats ([tx_count / batch_size], [x * 1_000_000_000], [int(...)],
    [math.ceil(...)]), so the embedding has three layers:

    - [Binary64]: the binary64 values and the correctly rounded operations
      Python performs on them, written over exact rationals;
    - [Py]: the exceptions, the numeric built-ins the script calls, and when
      rendering a value as text fails;
    - [App]: the script itself, function by function, and in [App.Objects]
      [compute_cost] once more with the profile as an object in a store. *)

From Stdlib Require Import ZArith QArith Qround Qabs Qpower Lia Lqa.
From Stdlib Require Import Bool String List SpecFloat.
Import ListNotations.
Local Open Scope string_scope.

Local Open Scope Z_scope.

(** ** Binary64 floats *)

Module Binary64.

(** A Python [float] is an IEEE-754 binary64: a signed zero, a signed
    infinity, a NaN, or [(-1)^s * m * 2^e].  [spec_float] is the Standard
    Library's datatype for exactly that. *)
Definition float : Type := spec_float.

Definition prec : Z := 53.
Definition emax : Z := 1024.
Definition emin : Z := 3 - emax - prec.

Definition pow2 (e : Z) : Q := (2 ^ e)%Q.

(** The magnitude and the value of a float as exact rationals (0 for the
    infinities and NaN, which the callers below test for first). *)
Definition magnitude (f : float) : Q :=
  match f with
  | S754_finite _ m e => (inject_Z (Zpos m) * pow2 e)%Q
  | _ => 0%Q
  end.

Definition sign (f : float) : bool :=
  match f with
  | S754_zero s | S754_infinity s | S754_finite s _ _ => s
  | S754_nan => false
  end.

Definition value (f : float) : Q :=
  if sign f then (- magnitude f)%Q else magnitude f.

(** Nearest integer to [y], ties to the even one. *)
Definition rne (y : Q) : Z :=
  let f := Qfloor y in
  match (y - inject_Z f ?= 1 # 2)%Q with
  | Lt => f
  | Gt => f + 1
  | Eq => if Z.even f then f else f + 1
  end.

(** [floor (log2 x)] for a positive rational [x]. *)
Definition ilog2 (x : Q) : Z :=
  let k := Z.log2 (Qnum x) - Z.log2 (Zpos (Qden x)) in
  if Qle_bool (pow2 k) x then k else k - 1.

(** The exponent of the unit in the last place of [x]: 53 significant bits,
    and never below the subnormal exponent. *)
Definition ulp_exp (x : Q) : Z := Z.max (ilog2 x - (prec - 1)) emin.

(** Round the non-negative rational [x] to the nearest binary64, ties to
    even, with the given sign: underflow gives a zero, a result of [2^emax]
    or more gives an infinity. *)
Definition round (neg : bool) (x : Q) : float :=
  match (x ?= 0)%Q with
  | Gt =>
      let e := ulp_exp x in
      let m := rne (x / pow2 e) in
      let '(m', e') := if m =? 2 ^ prec then (2 ^ (prec - 1), e + 1) else (m, e) in
      if emax - prec <? e' then S754_infinity neg
      else match m' with
           | Zpos p => S754_finite neg p e'
           | _ => S754_zero neg
           end
  | _ => S754_zero neg
  end.

(** IEEE-754 multiplication and division, round to nearest even. *)
Definition mul (x y : float) : float :=
  match x, y with
  | S754_nan, _ | _, S754_nan => S754_nan
  | S754_infinity sx, S754_infinity sy => S754_infinity (xorb sx sy)
  | S754_infinity sx, S754_finite sy _ _ => S754_infinity (xorb sx sy)
  | S754_finite sx _ _, S754_infinity sy => S754_infinity (xorb sx sy)
  | S754_infinity _, S754_zero _ | S754_zero _, S754_infinity _ => S754_nan
  | S754_zero sx, S754_zero sy
  | S754_zero sx, S754_finite sy _ _
  | S754_finite sx _ _, S754_zero sy => S754_zero (xorb sx sy)
  | S754_finite sx _ _, S754_finite sy _ _ =>
      round (xorb sx sy) (magnitude x * magnitude y)
  end.

Definition div (x y : float) : float :=
  match x, y with
  | S754_nan, _ | _, S754_nan => S754_nan
  | S754_infinity _, S754_infinity _ => S754_nan
  | S754_infinity sx, S754_zero sy
  | S754_infinity sx, S754_finite sy _ _ => S754_infinity (xorb sx sy)
  | S754_zero sx, S754_infinity sy
  | S754_finite sx _ _, S754_infinity sy => S754_zero (xorb sx sy)
  | S754_zero _, S754_zero _ => S754_nan
  | S754_zero sx, S754_finite sy _ _ => S754_zero (xorb sx sy)
  | S754_finite sx _ _, S754_zero sy => S754_infinity (xorb sx sy)
  | S754_finite sx _ _, S754_finite sy _ _ =>
      round (xorb sx sy) (magnitude x / magnitude y)
  end.

Definition is_zero (f : float) : bool :=
  match f with S754_zero _ => true | _ => false end.

Definition is_finite (f : float) : bool :=
  match f with S754_zero _ | S754_finite _ _ _ => true | _ => false end.

End Binary64.

(** ** Python exceptions and numeric built-ins *)

Module Py.
Import Binary64.

Inductive exn : Type :=
  | ValueError (msg : string)
  | OverflowError (msg : string)
  | ZeroDivisionError (msg : string)
  | TypeError (msg : string)
  | KeyError (k : string)
  | SystemExit (code : Z).

(** A call either returns a value or raises. *)
Inductive result (A : Type) : Type :=
  | Ok (a : A)
  | Raise (e : exn).
Arguments Ok {A} a.
Arguments Raise {A} e.

Definition bind {A B : Type} (c : result A) (k : A -> result B) : result B :=
  match c with
  | Ok a => k a
  | Raise e => Raise e
  end.

Notation "x <- c ;; k" := (bind c (fun x => k))
  (at level 61, c at next level, right associativity).

(** A float result that overflowed raises instead of returning infinity. *)
Definition finite_or_raise (msg : string) (f : float) : result float :=
  match f with
  | S754_infinity _ => Raise (OverflowError msg)
  | _ => Ok f
  end.

(** [float(n)] as done implicitly when an [int] meets a [float]. *)
Definition float_of_int (n : Z) : result float :=
  finite_or_raise "int too large to convert to float"
    (round (n <? 0) (inject_Z (Z.abs n))).

(** [a / b] on two [int]s: the exact quotient, correctly rounded. *)
Definition int_truediv (a b : Z) : result float :=
  if b =? 0 then Raise (ZeroDivisionError "division by zero")
  else finite_or_raise "integer division result too large for a float"
         (round (xorb (a <? 0) (b <? 0)) (Z.abs a # Z.to_pos (Z.abs b))).

(** [x * n] and [x / n] for a [float] [x] and an [int] [n]. *)
Definition float_mul_int (x : float) (n : Z) : result float :=
  y <- float_of_int n ;;
  Ok (mul x y).

Definition float_truediv_int (x : float) (n : Z) : result float :=
  y <- float_of_int n ;;
  if is_zero y then Raise (ZeroDivisionError "float division by zero")
  else Ok (div x y).

(** Truncation of a rational toward zero. *)
Definition Qtruncate (q : Q) : Z := Z.quot (Qnum q) (Zpos (Qden q)).

(** [int(x)] and [math.ceil(x)] on a float. *)
Definition int_of_float (x : float) : result Z :=
  match x with
  | S754_nan => Raise (ValueError "cannot convert float NaN to integer")
  | S754_infinity _ => Raise (OverflowError "cannot convert float infinity to integer")
  | _ => Ok (Qtruncate (value x))
  end.

Definition math_ceil (x : float) : result Z :=
  match x with
  | S754_nan => Raise (ValueError "cannot convert float NaN to integer")
  | S754_infinity _ => Raise (OverflowError "cannot convert float infinity to integer")
  | _ => Ok (Qceiling (value x))
  end.

(** Values stored in a [Dict[str, Any]], and the dict itself, in insertion
    order. *)
Inductive pyval : Type :=
  | VStr (s : string)
  | VInt (n : Z)
  | VFloat (f : float).

Definition dict : Type := list (string * pyval).

Fixpoint get {A : Type} (k : string) (d : list (string * A)) : option A :=
  match d with
  | [] => None
  | (k', v) :: d' => if String.eqb k k' then Some v else get k d'
  end.

(** [d[k]] *)
Definition getitem (d : dict) (k : string) : result pyval :=
  match get k d with
  | Some v => Ok v
  | None => Raise (KeyError k)
  end.

(** *** Rendering values as text

    The text that [str], [format] and [json.dumps] produce is not modelled;
    whether they return is.  [str(n)] and [repr(n)] refuse an [int] of more
    than 4300 decimal digits, CPython's default
    [sys.int_info.default_max_str_digits]. *)
Definition int_max_str_digits : Z := 4300.

(** The least [int] with more digits than that, [10^4300]. *)
Definition int_str_bound : Z := Eval vm_compute in 10 ^ int_max_str_digits.

Definition int_str_error : exn :=
  ValueError "Exceeds the limit (4300 digits) for integer string conversion; use sys.set_int_max_str_digits() to increase the limit".

Definition str_of_int (n : Z) : result unit :=
  if Z.abs n <? int_str_bound then Ok tt else Raise int_str_error.

(** The format specification of a replacement field: none, as in [{v}], or
    [.Nf], as in [{v:.2f}]. *)
Inductive format_spec : Type :=
  | Plain
  | Fixed (digits : nat).

(** [format(v, spec)]: a [str] formats as itself, a [float] always has a
    text, an [int] goes through [str], or through [float] under [.Nf]. *)
Definition format_field (v : pyval) (spec : format_spec) : result unit :=
  match spec, v with
  | Plain, VStr _ => Ok tt
  | Plain, VInt n => str_of_int n
  | Plain, VFloat _ => Ok tt
  | Fixed _, VStr _ =>
      Raise (ValueError "Unknown format code 'f' for object of type 'str'")
  | Fixed _, VInt n => _ <- float_of_int n ;; Ok tt
  | Fixed _, VFloat _ => Ok tt
  end.

(** [json.dumps(d, indent=2, sort_keys=True)] on a dict of strings, ints and
    floats: ints are written with [repr]; strings and floats (NaN and the
    infinities included) always have a text. *)
Fixpoint json_dumps (d : dict) : result unit :=
  match d with
  | [] => Ok tt
  | (_, VInt n) :: d' => _ <- str_of_int n ;; json_dumps d'
  | _ :: d' => json_dumps d'
  end.

End Py.

(** ** The script *)

Module App.
Import Binary64 Py.

Record RollupProfile : Type := {
  key : string;
  name : string;
  description : string;
  proof_gas : Z;
  calldata_gas_per_tx : Z;
  overhead_gas_per_batch : Z
}.

Definition aztec : RollupProfile := {|
  key := "aztec";
  name := "Aztec-style zk rollup";
  description :=
    "Privacy-preserving zk rollup with relatively expensive proofs but "
    ++ "efficient calldata packing.";
  proof_gas := 900000;
  calldata_gas_per_tx := 320;
  overhead_gas_per_batch := 60000
|}.

Definition zama : RollupProfile := {|
  key := "zama";
  name := "Zama-style FHE + rollup hybrid";
  description :=
    "Conceptual profile for a system combining fully homomorphic "
    ++ "encryption with rollup-style batching. Proofs are cheaper but "
    ++ "ciphertexts are larger.";
  proof_gas := 500000;
  calldata_gas_per_tx := 700;
  overhead_gas_per_batch := 70000
|}.

Definition soundness : RollupProfile := {|
  key := "soundness";
  name := "Soundness-first research rollup";
  description :=
    "Profile that prioritizes simple, auditable circuits and extra "
    ++ "safety margins over raw gas efficiency.";
  proof_gas := 650000;
  calldata_gas_per_tx := 420;
  overhead_gas_per_batch := 90000
|}.

Definition PROFILES : list (string * RollupProfile) :=
  [ ("aztec", aztec); ("zama", zama); ("soundness", soundness) ].

Definition wei_from_gwei (x : float) : result Z :=
  y <- float_mul_int x 1000000000 ;;
  int_of_float y.

Definition eth_from_wei (x : Z) : result float :=
  int_truediv x 1000000000000000000.

(** The local variables of [compute_cost] when it reaches its [return]. *)
Record Locals : Type := {
  batches : Z;
  total_proof_gas : Z;
  total_overhead_gas : Z;
  total_calldata_gas : Z;
  total_gas : Z;
  gas_price_wei : Z;
  total_fee_wei : Z;
  total_fee_eth : float;
  per_tx_gas : float;
  per_tx_fee_eth : float
}.

(** The body of [compute_cost] up to the [return] statement. *)
Definition compute_cost_locals (profile : RollupProfile)
    (tx_count batch_size : Z) (gas_price_gwei : float) : result Locals :=
  if tx_count <=? 0 then Raise (ValueError "tx_count must be positive.")
  else if batch_size <=? 0 then Raise (ValueError "batch_size must be positive.")
  else
    quotient <- int_truediv tx_count batch_size ;;
    batches <- math_ceil quotient ;;
    let total_proof_gas := batches * proof_gas profile in
    let total_overhead_gas := batches * overhead_gas_per_batch profile in
    let total_calldata_gas := tx_count * calldata_gas_per_tx profile in
    let total_gas := total_proof_gas + total_overhead_gas + total_calldata_gas in
    gas_price_wei <- wei_from_gwei gas_price_gwei ;;
    let total_fee_wei := total_gas * gas_price_wei in
    total_fee_eth <- eth_from_wei total_fee_wei ;;
    per_tx_gas <- int_truediv total_gas tx_count ;;
    per_tx_fee_eth <- float_truediv_int total_fee_eth tx_count ;;
    Ok {| batches := batches;
          total_proof_gas := total_proof_gas;
          total_overhead_gas := total_overhead_gas;
          total_calldata_gas := total_calldata_gas;
          total_gas := total_gas;
          gas_price_wei := gas_price_wei;
          total_fee_wei := total_fee_wei;
          total_fee_eth := total_fee_eth;
          per_tx_gas := per_tx_gas;
          per_tx_fee_eth := per_tx_fee_eth |}.

(** The dict built by the [return] statement. *)
Definition summary_dict (profile : RollupProfile) (tx_count batch_size : Z)
    (gas_price_gwei : float) (l : Locals) : dict :=
  [ ("profile", VStr (key profile));
    ("profileName", VStr (name profile));
    ("description", VStr (description profile));
    ("txCount", VInt tx_count);
    ("batchSize", VInt batch_size);
    ("batches", VInt (batches l));
    ("gasPriceGwei", VFloat gas_price_gwei);
    ("proofGasPerBatch", VInt (proof_gas profile));
    ("calldataGasPerTx", VInt (calldata_gas_per_tx profile));
    ("overheadGasPerBatch", VInt (overhead_gas_per_batch profile));
    ("totalProofGas", VInt (total_proof_gas l));
    ("totalOverheadGas", VInt (total_overhead_gas l));
    ("totalCalldataGas", VInt (total_calldata_gas l));
    ("totalGas", VInt (total_gas l));
    ("perTxGas", VFloat (per_tx_gas l));
    ("totalFeeEth", VFloat (total_fee_eth l));
    ("perTxFeeEth", VFloat (per_tx_fee_eth l)) ].

Definition compute_cost (profile : RollupProfile) (tx_count batch_size : Z)
    (gas_price_gwei : float) : result dict :=
  l <- compute_cost_locals profile tx_count batch_size gas_price_gwei ;;
  Ok (summary_dict profile tx_count batch_size gas_price_gwei l).

(** *** Command line, standard output and exit status *)

(** What [parse_args] hands to [main]: the [argparse.Namespace].  The three
    custom options have no default, so they are [None] unless given. *)
Record Namespace : Type := {
  arg_tx_count : Z;
  arg_profile : string;
  arg_batch_size : Z;
  arg_gas_price_gwei : float;
  arg_proof_gas : option Z;
  arg_calldata_gas_per_tx : option Z;
  arg_overhead_gas_per_batch : option Z;
  arg_json : bool;
  arg_list_profiles : bool
}.

(** What the script writes to standard output.  The text of a report is not
    modelled: [HumanReport s] stands for the 23 lines [print_human] prints
    for the summary [s], [HumanReportLines s n] for the first [n] of them,
    and [JsonReport s] for the text of
    [json.dumps(s, indent=2, sort_keys=True)]. *)
Inductive output : Type :=
  | Line (text : string)
  | HumanReport (summary : dict)
  | HumanReportLines (summary : dict) (n : nat)
  | JsonReport (summary : dict).

(** A statement of the script: it appends to standard output and either
    completes or raises. *)
Definition IO (A : Type) : Type := list output -> result A * list output.

Definition ret {A : Type} (a : A) : IO A := fun out => (Ok a, out).

Definition raise {A : Type} (e : exn) : IO A := fun out => (Raise e, out).

Definition seq {A B : Type} (c : IO A) (k : A -> IO B) : IO B :=
  fun out =>
    match c out with
    | (Ok a, out') => k a out'
    | (Raise e, out') => (Raise e, out')
    end.

Notation "x <~ c ;; k" := (seq c (fun x => k))
  (at level 61, c at next level, right associativity).
Notation "c ;;; k" := (seq c (fun _ => k))
  (at level 61, right associativity).

(** [print(text)]: standard output is taken to accept any text. *)
Definition print (text : string) : IO unit :=
  fun out => (Ok tt, (out ++ [Line text])%list).

Definition sys_exit {A : Type} (code : Z) : IO A := raise (SystemExit code).

(** The three bytes-as-typed characters that open the error messages. *)
Definition cross_mark : string := "‚ùå".

Fixpoint print_profiles (ps : list (string * RollupProfile)) : IO unit :=
  match ps with
  | [] => ret tt
  | (k, prof) :: ps' =>
      print ("- " ++ k ++ ": " ++ name prof) ;;;
      print_profiles ps'
  end.

Definition list_profiles : IO unit :=
  print "Available profiles:" ;;;
  print_profiles PROFILES ;;;
  print EmptyString ;;;
  print "Use --profile with one of the keys above, or 'custom' to provide your own parameters.".

(** The option names [build_custom_profile] collects in [missing]. *)
Definition missing_options (args : Namespace) : list string :=
  ((match arg_proof_gas args with None => ["--proof-gas"] | Some _ => [] end)
   ++ (match arg_calldata_gas_per_tx args with
       | None => ["--calldata-gas-per-tx"] | Some _ => [] end)
   ++ (match arg_overhead_gas_per_batch args with
       | None => ["--overhead-gas-per-batch"] | Some _ => [] end))%list.

(** The profile [build_custom_profile] returns for the three option values. *)
Definition custom_profile (pg cg og : Z) : RollupProfile := {|
  key := "custom";
  name := "Custom rollup profile";
  description := "User-defined gas parameters for a hypothetical rollup.";
  proof_gas := pg;
  calldata_gas_per_tx := cg;
  overhead_gas_per_batch := og
|}.

Definition build_custom_profile (args : Namespace) : IO RollupProfile :=
  match missing_options args with
  | _ :: _ =>
      print (cross_mark ++ " Missing required options for custom profile: "
             ++ String.concat ", " (missing_options args)) ;;;
      sys_exit 1
  | [] =>
      match arg_proof_gas args, arg_calldata_gas_per_tx args,
            arg_overhead_gas_per_batch args with
      | Some pg, Some cg, Some og => ret (custom_profile pg cg og)
      | _, _, _ =>
          (* not reached: [missing] is empty only when all three are given *)
          raise (TypeError "unsupported operand type(s): 'NoneType'")
      end
  end.

(** An f-string, part by part: literal text and replacement fields
    [{summary['key']}] or [{summary['key']:.Nf}]. *)
Inductive part : Type :=
  | Lit (text : string)
  | Field (key : string) (spec : format_spec).

(** Evaluating an f-string: each field is looked up and formatted in turn. *)
Fixpoint fstring (summary : dict) (parts : list part) : result unit :=
  match parts with
  | [] => Ok tt
  | Lit _ :: rest => fstring summary rest
  | Field k spec :: rest =>
      v <- getitem summary k ;;
      _ <- format_field v spec ;;
      fstring summary rest
  end.

(** The arguments of the 23 [print] calls of [print_human], in order. *)
Definition human_report : list (list part) :=
  [ [Lit "üîç Rollup cost estimate"];
    [Lit "Profile      : "; Field "profileName" Plain; Lit " (";
     Field "profile" Plain; Lit ")"];
    [Lit "Description  : "; Field "description" Plain];
    [];
    [Lit "Transactions : "; Field "txCount" Plain];
    [Lit "Batch size   : "; Field "batchSize" Plain];
    [Lit "Batches      : "; Field "batches" Plain];
    [Lit "Gas price    : "; Field "gasPriceGwei" (Fixed 2); Lit " gwei"];
    [];
    [Lit "Gas breakdown (units of gas):"];
    [Lit "  Proof gas per batch      : "; Field "proofGasPerBatch" Plain];
    [Lit "  Overhead gas per batch   : "; Field "overheadGasPerBatch" Plain];
    [Lit "  Calldata gas per tx      : "; Field "calldataGasPerTx" Plain];
    [];
    [Lit "  Total proof gas          : "; Field "totalProofGas" Plain];
    [Lit "  Total overhead gas       : "; Field "totalOverheadGas" Plain];
    [Lit "  Total calldata gas       : "; Field "totalCalldataGas" Plain];
    [Lit "  Total gas                : "; Field "totalGas" Plain];
    [];
    [Lit "Cost estimate:"];
    [Lit "  Total fee   : "; Field "totalFeeEth" (Fixed 6); Lit " ETH"];
    [Lit "  Per tx fee  : "; Field "perTxFeeEth" (Fixed 8); Lit " ETH"];
    [Lit "  Per tx gas  : "; Field "perTxGas" (Fixed 2); Lit " gas"] ].

(** The lines are printed one after the other, until an f-string raises:
    the result, and the number of lines printed. *)
Fixpoint print_lines (summary : dict) (lines : list (list part)) (printed : nat)
    : result unit * nat :=
  match lines with
  | [] => (Ok tt, printed)
  | parts :: rest =>
      match fstring summary parts with
      | Ok _ => print_lines summary rest (S printed)
      | Raise e => (Raise e, printed)
      end
  end.

Definition print_human (summary : dict) : IO unit :=
  fun out =>
    match print_lines summary human_report 0 with
    | (Ok _, _) => (Ok tt, (out ++ [HumanReport summary])%list)
    | (Raise e, n) => (Raise e, (out ++ [HumanReportLines summary n])%list)
    end.

(** The [--json] branch of [main]:
    [print(json.dumps(summary, indent=2, sort_keys=True))]. *)
Definition print_json (summary : dict) : IO unit :=
  fun out =>
    match json_dumps summary with
    | Ok _ => (Ok tt, (out ++ [JsonReport summary])%list)
    | Raise e => (Raise e, out)
    end.

(** The exit status of the process: 0 when [main] returns, the code given
    to [sys.exit], and 1 for any other exception that reaches the top. *)
Definition exit_status {A : Type} (r : result A) : Z :=
  match r with
  | Ok _ => 0
  | Raise (SystemExit code) => code
  | Raise _ => 1
  end.

Section Script.

(** [parse_args()] is argparse at work on [sys.argv].  It is not modelled:
    [main] is given the step it calls, which returns the [Namespace] or
    leaves through [sys.exit] (with status 2 on a usage error, such as a
    missing [tx_count]). *)
Variable parse_args : IO Namespace.

Definition main : IO unit :=
  args <~ parse_args ;;
  if arg_list_profiles args then list_profiles
  else
    profile <~ (if String.eqb (arg_profile args) "custom"
                then build_custom_profile args
                else match get (arg_profile args) PROFILES with
                     | Some prof => ret prof
                     | None => raise (KeyError (arg_profile args))
                     end) ;;
    summary <~ (match compute_cost profile (arg_tx_count args)
                        (arg_batch_size args) (arg_gas_price_gwei args) with
                | Ok summary => ret summary
                | Raise (ValueError e) =>
                    print (cross_mark ++ " " ++ e) ;;; sys_exit 1
                | Raise e => raise e
                end) ;;
    if arg_json args then print_json summary else print_human summary.

(** Running the script: what it printed and its exit status. *)
Definition run : list output * Z :=
  let '(r, out) := main [] in (out, exit_status r).

End Script.

(** *** The profile as an object

    A [RollupProfile] instance is a mutable object, and [compute_cost] is
    handed a reference to it.  The world a call runs in holds what has been
    printed and the attributes of every profile object; [Objects.compute_cost]
    is [compute_cost] statement by statement in that world, each
    [profile.attr] a read through the reference. *)
Module Objects.

Definition ref : Type := nat.

Record World : Type := {
  stdout : list output;
  objects : ref -> RollupProfile
}.

Definition M (A : Type) : Type := World -> result A * World.

Definition unit_ {A : Type} (a : A) : M A := fun w => (Ok a, w).

Definition throw {A : Type} (e : exn) : M A := fun w => (Raise e, w).

Definition then_ {A B : Type} (c : M A) (k : A -> M B) : M B :=
  fun w =>
    match c w with
    | (Ok a, w') => k a w'
    | (Raise e, w') => (Raise e, w')
    end.

Notation "x <<- c ;; k" := (then_ c (fun x => k))
  (at level 61, c at next level, right associativity).

(** A call of a function that takes and returns values only. *)
Definition call {A : Type} (c : result A) : M A := fun w => (c, w).

(** [r.attr] *)
Definition getattr {A : Type} (attr : RollupProfile -> A) (r : ref) : M A :=
  fun w => (Ok (attr (objects w r)), w).

Definition compute_cost (profile : ref) (tx_count batch_size : Z)
    (gas_price_gwei : float) : M dict :=
  if tx_count <=? 0 then throw (ValueError "tx_count must be positive.")
  else if batch_size <=? 0 then throw (ValueError "batch_size must be positive.")
  else
    quotient <<- call (int_truediv tx_count batch_size) ;;
    batches <<- call (math_ceil quotient) ;;
    pg <<- getattr proof_gas profile ;;
    let total_proof_gas := batches * pg in
    og <<- getattr overhead_gas_per_batch profile ;;
    let total_overhead_gas := batches * og in
    cg <<- getattr calldata_gas_per_tx profile ;;
    let total_calldata_gas := tx_count * cg in
    let total_gas := total_proof_gas + total_overhead_gas + total_calldata_gas in
    gas_price_wei <<- call (wei_from_gwei gas_price_gwei) ;;
    let total_fee_wei := total_gas * gas_price_wei in
    total_fee_eth <<- call (eth_from_wei total_fee_wei) ;;
    per_tx_gas <<- call (int_truediv total_gas tx_count) ;;
    per_tx_fee_eth <<- call (float_truediv_int total_fee_eth tx_count) ;;
    profile_key <<- getattr key profile ;;
    profile_name <<- getattr name profile ;;
    profile_description <<- getattr description profile ;;
    profile_proof_gas <<- getattr proof_gas profile ;;
    profile_calldata_gas <<- getattr calldata_gas_per_tx profile ;;
    profile_overhead_gas <<- getattr overhead_gas_per_batch profile ;;
    unit_
      [ ("profile", VStr profile_key);
        ("profileName", VStr profile_name);
        ("description", VStr profile_description);
        ("txCount", VInt tx_count);
        ("batchSize", VInt batch_size);
        ("batches", VInt batches);
        ("gasPriceGwei", VFloat gas_price_gwei);
        ("proofGasPerBatch", VInt profile_proof_gas);
        ("calldataGasPerTx", VInt profile_calldata_gas);
        ("overheadGasPerBatch", VInt profile_overhead_gas);
        ("totalProofGas", VInt total_proof_gas);
        ("totalOverheadGas", VInt total_overhead_gas);
        ("totalCalldataGas", VInt total_calldata_gas);
        ("totalGas", VInt total_gas);
        ("perTxGas", VFloat per_tx_gas);
        ("totalFeeEth", VFloat total_fee_eth);
        ("perTxFeeEth", VFloat per_tx_fee_eth) ].

End Objects.

End App.

(** ** Concrete inputs used below *)

Module Examples.
Import Binary64 Py App.

(** [float(1_000_000_000)]: [8388608000000000 * 2^-23]. *)
Definition billion : float := S754_finite false 8388608000000000 (-23).

(** The default gas price [20.0]: [5629499534213120 * 2^-48]. *)
Definition gwei20 : float := S754_finite false 5629499534213120 (-48).

(** The float written [0.3]: [5404319552844595 * 2^-54], just below 3/10. *)
Definition gwei03 : float := S754_finite false 5404319552844595 (-54).

(** The float written [1e300]. *)
Definition gwei1e300 : float := Eval vm_compute in round false (inject_Z (10 ^ 300)).

(** [rollup_cost_profiler 256]: every option at its default. *)
Definition default_args : Namespace := {|
  arg_tx_count := 256;
  arg_profile := "aztec";
  arg_batch_size := 256;
  arg_gas_price_gwei := gwei20;
  arg_proof_gas := None;
  arg_calldata_gas_per_tx := None;
  arg_overhead_gas_per_batch := None;
  arg_json := false;
  arg_list_profiles := false
|}.

(** [rollup_cost_profiler 0] *)
Definition zero_tx_args : Namespace := {|
  arg_tx_count := 0;
  arg_profile := "aztec";
  arg_batch_size := 256;
  arg_gas_price_gwei := gwei20;
  arg_proof_gas := None;
  arg_calldata_gas_per_tx := None;
  arg_overhead_gas_per_batch := None;
  arg_json := false;
  arg_list_profiles := false
|}.

(** [rollup_cost_profiler 256 --profile custom --calldata-gas-per-tx 300] *)
Definition custom_missing_args : Namespace := {|
  arg_tx_count := 256;
  arg_profile := "custom";
  arg_batch_size := 256;
  arg_gas_price_gwei := gwei20;
  arg_proof_gas := None;
  arg_calldata_gas_per_tx := Some 300;
  arg_overhead_gas_per_batch := None;
  arg_json := false;
  arg_list_profiles := false
|}.

(** The same command line with [--list-profiles] added. *)
Definition custom_missing_list_args : Namespace := {|
  arg_tx_count := 256;
  arg_profile := "custom";
  arg_batch_size := 256;
  arg_gas_price_gwei := gwei20;
  arg_proof_gas := None;
  arg_calldata_gas_per_tx := Some 300;
  arg_overhead_gas_per_batch := None;
  arg_json := false;
  arg_list_profiles := true
|}.

(** [rollup_cost_profiler 256 --profile custom --proof-gas 800000
    --calldata-gas-per-tx 300 --overhead-gas-per-batch 50000] *)
Definition custom_args : Namespace := {|
  arg_tx_count := 256;
  arg_profile := "custom";
  arg_batch_size := 256;
  arg_gas_price_gwei := gwei20;
  arg_proof_gas := Some 800000;
  arg_calldata_gas_per_tx := Some 300;
  arg_overhead_gas_per_batch := Some 50000;
  arg_json := false;
  arg_list_profiles := false
|}.

(** [rollup_cost_profiler 2 --profile custom --proof-gas -1
    --calldata-gas-per-tx -1 --overhead-gas-per-batch 0 --batch-size 1] *)
Definition negative_args : Namespace := {|
  arg_tx_count := 2;
  arg_profile := "custom";
  arg_batch_size := 1;
  arg_gas_price_gwei := gwei20;
  arg_proof_gas := Some (-1);
  arg_calldata_gas_per_tx := Some (-1);
  arg_overhead_gas_per_batch := Some 0;
  arg_json := false;
  arg_list_profiles := false
|}.

(** The summary of the default run, [compute_cost(aztec, 256, 256, 20.0)]. *)
Definition aztec_summary : dict :=
  Eval vm_compute in
    match compute_cost aztec 256 256 gwei20 with
    | Ok s => s
    | Raise _ => []
    end.

(** The summary of [compute_cost] on the custom profile of [custom_args]. *)
Definition custom_summary : dict :=
  Eval vm_compute in
    match compute_cost (custom_profile 800000 300 50000) 256 256 gwei20 with
    | Ok s => s
    | Raise _ => []
    end.

(** The locals of [compute_cost(aztec, 256, 256, 20.0)] at its [return]. *)
Definition aztec_locals : Locals := {|
  batches := 1;
  total_proof_gas := 900000;
  total_overhead_gas := 60000;
  total_calldata_gas := 81920;
  total_gas := 1041920;
  gas_price_wei := 20000000000;
  total_fee_wei := 20838400000000000;
  total_fee_eth := S754_finite false 6006259870399830 (-58);
  per_tx_gas := S754_finite false 8950024650096640 (-41);
  per_tx_fee_eth := S754_finite false 6006259870399830 (-66)
|}.

(** [rollup_cost_profiler 0 --list-profiles --profile custom --batch-size -5
    --gas-price-gwei nan --json] *)
Definition list_args : Namespace := {|
  arg_tx_count := 0;
  arg_profile := "custom";
  arg_batch_size := -5;
  arg_gas_price_gwei := S754_nan;
  arg_proof_gas := None;
  arg_calldata_gas_per_tx := None;
  arg_overhead_gas_per_batch := None;
  arg_json := true;
  arg_list_profiles := true
|}.

(** [rollup_cost_profiler 256 --gas-price-gwei 1e300] *)
Definition overflow_args : Namespace := {|
  arg_tx_count := 256;
  arg_profile := "aztec";
  arg_batch_size := 256;
  arg_gas_price_gwei := gwei1e300;
  arg_proof_gas := None;
  arg_calldata_gas_per_tx := None;
  arg_overhead_gas_per_batch := None;
  arg_json := false;
  arg_list_profiles := false
|}.

(** [rollup_cost_profiler 10 --batch-size 1 --profile custom
    --proof-gas P --calldata-gas-per-tx 1 --overhead-gas-per-batch -P] with
    [P = 10^4300 - 1]: every option has at most 4300 digits, the total
    proof gas [10 * P] has 4301. *)
Definition long_int_args : Namespace := {|
  arg_tx_count := 10;
  arg_profile := "custom";
  arg_batch_size := 1;
  arg_gas_price_gwei := gwei20;
  arg_proof_gas := Some (int_str_bound - 1);
  arg_calldata_gas_per_tx := Some 1;
  arg_overhead_gas_per_batch := Some (- (int_str_bound - 1));
  arg_json := false;
  arg_list_profiles := false
|}.

(** The summary [compute_cost] returns for [long_int_args]. *)
Definition long_int_summary : dict :=
  Eval vm_compute in
    match compute_cost (custom_profile (int_str_bound - 1) 1 (- (int_str_bound - 1)))
            10 1 gwei20 with
    | Ok s => s
    | Raise _ => []
    end.

(** A world in which something has been printed and every reference holds
    the aztec profile. *)
Definition aztec_world : Objects.World := {|
  Objects.stdout := [Line "Available profiles:"];
  Objects.objects := fun _ => aztec
|}.

End Examples.

(** The rounding written in [Binary64] against the Standard Library's
    reference operations [SFmul] and [SFdiv], on the values used below and
    at the edges: an inexact product, overflow, underflow to zero, a
    subnormal operand, and a signed quotient. *)
Module Binary64Checks.
Import Binary64 Examples.

Example mul_div_agree_with_SpecFloat :
  mul gwei03 billion = SFmul prec emax gwei03 billion /\
  mul gwei1e300 billion = SFmul prec emax gwei1e300 billion /\
  mul (S754_finite false 1 (-1074)) gwei03
    = SFmul prec emax (S754_finite false 1 (-1074)) gwei03 /\
  div (S754_finite false 1 (-1074)) gwei20
    = SFdiv prec emax (S754_finite false 1 (-1074)) gwei20 /\
  div (S754_finite false 9007199254740991 971) gwei03
    = SFdiv prec emax (S754_finite false 9007199254740991 971) gwei03 /\
  div gwei20 gwei03 = SFdiv prec emax gwei20 gwei03 /\
  div (S754_finite true 6006259870399830 (-58)) billion
    = SFdiv prec emax (S754_finite true 6006259870399830 (-58)) billion.
Proof. vm_compute. repeat split. Qed.

End Binary64Checks.

(** * Properties *)

Import Binary64 Py App Examples.

(** ** Binary64 rounding *)

Module Binary64Facts.
Local Open Scope Q_scope.

Lemma pow2_pos e : 0 < pow2 e.
Proof. apply Qpower_0_lt. reflexivity. Qed.

Lemma pow2_add a b : pow2 (a + b) == pow2 a * pow2 b.
Proof. apply Qpower_plus. discriminate. Qed.

Lemma pow2_le a b : (a <= b)%Z -> pow2 a <= pow2 b.
Proof. intros H. apply Qpower_le_compat_l; [exact H | discriminate]. Qed.

Lemma pow2_lt a b : (a < b)%Z -> pow2 a < pow2 b.
Proof. intros H. apply Qpower_lt_compat_l; [exact H | reflexivity]. Qed.

Lemma pow2_lt_inv a b : pow2 a < pow2 b -> (a < b)%Z.
Proof. intros H. apply (Qpower_lt_compat_l_inv 2); [exact H | reflexivity]. Qed.

Lemma pow2_Z n : (0 <= n)%Z -> pow2 n == inject_Z (2 ^ n).
Proof. intros H. unfold pow2. now rewrite Zpower_Qpower. Qed.

Lemma pow2_succ a : pow2 (a + 1) == 2 * pow2 a.
Proof. rewrite pow2_add. change (pow2 1) with 2. ring. Qed.

Lemma pow2_div x e : x / pow2 e == x * pow2 (- e).
Proof.
  unfold Qdiv. apply Qmult_comp; [reflexivity|].
  unfold pow2. now rewrite Qpower_opp.
Qed.

Lemma pow2_mul_inv e : pow2 e * pow2 (- e) == 1.
Proof. rewrite <- pow2_add. now replace (e + - e)%Z with 0%Z by lia. Qed.

(** *** Rounding to the nearest integer *)

Lemma rne_cases y :
  let f := Qfloor y in
  (rne y = f /\ y - inject_Z f <= 1 # 2) \/
  (rne y = (f + 1)%Z /\ 1 # 2 <= y - inject_Z f).
Proof.
  unfold rne. cbv zeta.
  destruct (Qcompare_spec (y - inject_Z (Qfloor y)) (1 # 2)) as [E | E | E].
  - destruct (Z.even (Qfloor y)); [left | right]; split; auto; rewrite E; lra.
  - left. split; auto. lra.
  - right. split; auto. lra.
Qed.

Lemma floor_bounds y : inject_Z (Qfloor y) <= y /\ y < inject_Z (Qfloor y) + 1.
Proof.
  split; [apply Qfloor_le|].
  pose proof (Qlt_floor y) as H. now rewrite inject_Z_plus in H.
Qed.

Lemma rne_error y : Qabs (inject_Z (rne y) - y) <= 1 # 2.
Proof.
  apply Qabs_Qle_condition.
  pose proof (floor_bounds y) as [H1 H2].
  destruct (rne_cases y) as [[-> H] | [-> H]]; cbv zeta in *.
  - lra.
  - rewrite inject_Z_plus. change (inject_Z 1) with 1. lra.
Qed.

#[global] Instance rne_comp : Proper (Qeq ==> eq) rne.
Proof.
  intros x y E. unfold rne. rewrite (Qfloor_comp _ _ E).
  now rewrite E.
Qed.

Lemma Zlt_inject a b : inject_Z a < inject_Z b -> (a < b)%Z.
Proof. now rewrite <- Zlt_Qlt. Qed.

Lemma rne_mono x y : x <= y -> (rne x <= rne y)%Z.
Proof.
  intros H.
  pose proof (Qfloor_resp_le _ _ H) as Hf.
  pose proof (floor_bounds x) as [Hx1 Hx2].
  pose proof (floor_bounds y) as [Hy1 Hy2].
  assert (Hc : (Qfloor x = Qfloor y \/ Qfloor x + 1 <= Qfloor y)%Z) by lia.
  destruct Hc as [Hc | Hc].
  - unfold rne. rewrite <- Hc.
    destruct (Qcompare_spec (x - inject_Z (Qfloor x)) (1 # 2)) as [E | E | E];
    destruct (Qcompare_spec (y - inject_Z (Qfloor x)) (1 # 2)) as [E' | E' | E'];
    try destruct (Z.even (Qfloor x)); try lia; exfalso; lra.
  - destruct (rne_cases x) as [[-> _] | [-> _]];
    destruct (rne_cases y) as [[-> Hy] | [-> _]]; cbv zeta in *; try lia.
Qed.

Lemma rne_Z n : rne (inject_Z n) = n.
Proof.
  unfold rne. rewrite Qfloor_Z.
  destruct (Qcompare_spec (inject_Z n - inject_Z n) (1 # 2)) as [E | E | E];
    try reflexivity; exfalso; lra.
Qed.


(** *** The binary logarithm and the exponent of the last place *)

Lemma log2_bounds n :
  (0 < n)%Z -> pow2 (Z.log2 n) <= inject_Z n /\ inject_Z n < pow2 (Z.log2 n + 1).
Proof.
  intros H. pose proof (Z.log2_spec n H) as [H1 H2].
  pose proof (Z.log2_nonneg n) as H0.
  rewrite !pow2_Z by lia. split.
  - now rewrite <- Zle_Qle.
  - rewrite <- Zlt_Qlt. now replace (Z.log2 n + 1)%Z with (Z.succ (Z.log2 n)) by lia.
Qed.

Lemma ilog2_spec x : 0 < x -> pow2 (ilog2 x) <= x /\ x < pow2 (ilog2 x + 1).
Proof.
  intros Hx. destruct x as [n d].
  assert (Hn : (0 < n)%Z).
  { unfold Qlt in Hx. simpl in Hx. lia. }
  pose proof (log2_bounds n Hn) as [Hn1 Hn2].
  pose proof (log2_bounds (Zpos d) eq_refl) as [Hd1 Hd2].
  assert (E : (n # d) * inject_Z (Zpos d) == inject_Z n).
  { rewrite Qmake_Qdiv. field. discriminate. }
  unfold ilog2. simpl Qnum. simpl Qden.
  set (ln := Z.log2 n) in *. set (ld := Z.log2 (Zpos d)) in *.
  pose proof (pow2_pos ld) as Pd. pose proof (pow2_pos (ln - ld)) as Pk.
  assert (K : pow2 (ln - ld) * pow2 ld == pow2 ln).
  { rewrite <- pow2_add. now replace (ln - ld + ld)%Z with ln by lia. }
  assert (K1 : pow2 (ln - ld + 1) * pow2 ld == pow2 (ln + 1)).
  { rewrite <- pow2_add. now replace (ln - ld + 1 + ld)%Z with (ln + 1)%Z by lia. }
  assert (K2 : pow2 (ln - ld - 1) * pow2 (ld + 1) == pow2 ln).
  { rewrite <- pow2_add. now replace (ln - ld - 1 + (ld + 1))%Z with ln by lia. }
  destruct (Qle_bool (pow2 (ln - ld)) (n # d)) eqn:B.
  - apply Qle_bool_iff in B. split; [exact B|].
    apply (Qmult_lt_r _ _ (pow2 ld) Pd). rewrite K1.
    apply Qle_lt_trans with (inject_Z n); [|exact Hn2].
    rewrite <- E. apply Qmult_le_l; [exact Hx | exact Hd1].
  - assert (B' : n # d < pow2 (ln - ld)).
    { apply Qnot_le_lt. intros C. apply Qle_bool_iff in C. congruence. }
    replace (ln - ld - 1 + 1)%Z with (ln - ld)%Z by lia. split; [|exact B'].
    apply Qlt_le_weak.
    apply (Qmult_lt_r _ _ (pow2 (ld + 1)) (pow2_pos _)). rewrite K2.
    apply Qle_lt_trans with (inject_Z n); [exact Hn1|].
    rewrite <- E. apply Qmult_lt_l; [exact Hx | exact Hd2].
Qed.

Lemma ilog2_unique x l :
  0 < x -> pow2 l <= x -> x < pow2 (l + 1) -> ilog2 x = l.
Proof.
  intros Hx H1 H2. destruct (ilog2_spec x Hx) as [S1 S2].
  assert (A : (ilog2 x < l + 1)%Z).
  { apply pow2_lt_inv. eapply Qle_lt_trans; eassumption. }
  assert (B : (l < ilog2 x + 1)%Z).
  { apply pow2_lt_inv. eapply Qle_lt_trans; eassumption. }
  lia.
Qed.

Lemma ilog2_mono x y : 0 < x -> x <= y -> (ilog2 x <= ilog2 y)%Z.
Proof.
  intros Hx Hxy.
  destruct (ilog2_spec x Hx) as [S1 _].
  destruct (ilog2_spec y) as [_ S2]; [eapply Qlt_le_trans; eassumption|].
  assert (A : (ilog2 x < ilog2 y + 1)%Z).
  { apply pow2_lt_inv. eapply Qle_lt_trans; [exact S1|].
    eapply Qle_lt_trans; eassumption. }
  lia.
Qed.

Lemma ulp_exp_mono x y : 0 < x -> x <= y -> (ulp_exp x <= ulp_exp y)%Z.
Proof.
  intros Hx Hxy. pose proof (ilog2_mono x y Hx Hxy). unfold ulp_exp. lia.
Qed.

(** The scaled significand [x / 2^e] stays below [2^53]; in the normal
    range it is at least [2^52]. *)
Lemma scaled_upper x :
  0 < x -> x / pow2 (ulp_exp x) < inject_Z (2 ^ prec).
Proof.
  intros Hx. destruct (ilog2_spec x Hx) as [_ S2].
  apply Qlt_shift_div_r; [apply pow2_pos|].
  rewrite <- pow2_Z by (unfold prec; lia). rewrite <- pow2_add.
  eapply Qlt_le_trans; [exact S2|]. apply pow2_le.
  unfold ulp_exp, prec. lia.
Qed.

Lemma scaled_lower x :
  0 < x -> (emin < ilog2 x - (prec - 1))%Z ->
  inject_Z (2 ^ (prec - 1)) <= x / pow2 (ulp_exp x).
Proof.
  intros Hx Hn. destruct (ilog2_spec x Hx) as [S1 _].
  apply Qle_shift_div_l; [apply pow2_pos|].
  rewrite <- pow2_Z by (unfold prec; lia). rewrite <- pow2_add.
  eapply Qle_trans; [|exact S1]. apply pow2_le.
  unfold ulp_exp, prec in *. lia.
Qed.

Lemma significand_range x :
  0 < x -> (0 <= rne (x / pow2 (ulp_exp x)) <= 2 ^ prec)%Z.
Proof.
  intros Hx. split.
  - rewrite <- (rne_Z 0). apply rne_mono.
    apply Qle_shift_div_l; [apply pow2_pos|].
    change (inject_Z 0) with 0. rewrite Qmult_0_l. lra.
  - rewrite <- (rne_Z (2 ^ prec)). apply rne_mono.
    apply Qlt_le_weak, scaled_upper, Hx.
Qed.

(** *** What [round] returns *)

Lemma round_zero s x : x <= 0 -> round s x = S754_zero s.
Proof.
  intros H. unfold round.
  destruct (Qcompare_spec x 0) as [E | E | E]; try reflexivity.
  exfalso. lra.
Qed.

Lemma round_pos s x :
  0 < x ->
  let e := ulp_exp x in
  let m := rne (x / pow2 e) in
  (round s x = S754_infinity s /\ (emax - prec < e \/ (e = emax - prec /\ m = 2 ^ prec))%Z)
  \/ (is_finite (round s x) = true /\ sign (round s x) = s /\
      magnitude (round s x) == inject_Z m * pow2 e /\
      (e <= emax - prec)%Z /\ (m = 2 ^ prec -> e < emax - prec)%Z).
Proof.
  intros Hx e m. pose proof (significand_range x Hx) as Hm. fold e m in Hm.
  unfold round. fold e. fold m.
  destruct (Qcompare_spec x 0) as [E | E | E]; [exfalso; lra | exfalso; lra |].
  destruct (Z.eqb_spec m (2 ^ prec)) as [M | M].
  - destruct (Z.ltb_spec (emax - prec) (e + 1)) as [O | O].
    + left. split; [reflexivity|]. lia.
    + right. change (2 ^ (prec - 1))%Z with (Zpos (2 ^ 52)).
      cbn [is_finite sign magnitude]. repeat split; try lia.
      rewrite M, pow2_succ. change (inject_Z (2 ^ prec)) with (2 * inject_Z (Zpos (2 ^ 52))).
      ring.
  - destruct (Z.ltb_spec (emax - prec) e) as [O | O].
    + left. split; [reflexivity|]. lia.
    + right. destruct m as [| p | p]; cbn [is_finite sign magnitude].
      * repeat split; lia.
      * repeat split; try lia; reflexivity.
      * lia.
Qed.

Lemma scaled_mul x e : x / pow2 e * pow2 e == x.
Proof. field. pose proof (pow2_pos e). lra. Qed.

(** The rounding error is at most half a unit in the last place: a relative
    error of [2^-53], or an absolute one of [2^-1075] in the subnormal
    range. *)
Lemma round_error s x :
  0 < x -> is_finite (round s x) = true ->
  Qabs (magnitude (round s x) - x) <= x * pow2 (-53) + pow2 (-1075).
Proof.
  intros Hx Hf.
  destruct (round_pos s x Hx) as [[E _] | (_ & _ & M & _)].
  { rewrite E in Hf. discriminate. }
  rewrite M. clear M Hf.
  pose proof (rne_error (x / pow2 (ulp_exp x))) as R.
  apply Qabs_Qle_condition in R.
  pose proof (scaled_mul x (ulp_exp x)) as Y.
  pose proof (pow2_pos (ulp_exp x)) as P.
  assert (U : pow2 (ulp_exp x) <= 2 * (x * pow2 (-53) + pow2 (-1075))).
  { destruct (ilog2_spec x Hx) as [S1 _].
    pose proof (pow2_pos (-53)) as P53. pose proof (pow2_pos (-1075)) as P1075.
    unfold ulp_exp.
    destruct (Z.max_spec (ilog2 x - (prec - 1)) emin) as [[_ ->] | [_ ->]].
    - change emin with (-1075 + 1)%Z. rewrite pow2_succ.
      assert (0 <= x * pow2 (-53)) by (apply Qmult_le_0_compat; lra). lra.
    - replace (ilog2 x - (prec - 1))%Z with (ilog2 x + -53 + 1)%Z by (unfold prec; lia).
      rewrite pow2_succ, pow2_add.
      assert (pow2 (ilog2 x) * pow2 (-53) <= x * pow2 (-53))
        by (apply Qmult_le_compat_r; lra).
      lra. }
  set (m := inject_Z (rne (x / pow2 (ulp_exp x)))) in *.
  set (y := x / pow2 (ulp_exp x)) in *.
  set (p := pow2 (ulp_exp x)) in *.
  set (b := x * pow2 (-53) + pow2 (-1075)) in *.
  apply Qabs_Qle_condition.
  assert (A1 : (m - y) * p <= (1 # 2) * p) by (apply Qmult_le_compat_r; lra).
  assert (A2 : - (1 # 2) * p <= (m - y) * p) by (apply Qmult_le_compat_r; lra).
  split; rewrite <- Y; lra.
Qed.

(** Below [2^1023] nothing overflows. *)
Lemma round_finite s x : x < pow2 1023 -> is_finite (round s x) = true.
Proof.
  intros Hb. destruct (Qlt_le_dec 0 x) as [Hx | Hx].
  2: { now rewrite round_zero. }
  destruct (round_pos s x Hx) as [[_ O] | (F & _)]; [exfalso | exact F].
  destruct (ilog2_spec x Hx) as [S1 _].
  assert (L : (ilog2 x < 1023)%Z).
  { apply pow2_lt_inv. eapply Qle_lt_trans; eassumption. }
  unfold ulp_exp, emin, emax, prec in O. lia.
Qed.

(** Rounding is monotone. *)
Lemma round_mono s s' x y :
  0 < x -> x <= y ->
  is_finite (round s x) = true -> is_finite (round s' y) = true ->
  magnitude (round s x) <= magnitude (round s' y).
Proof.
  intros Hx Hxy Fx Fy.
  assert (Hy : 0 < y) by lra.
  destruct (round_pos s x Hx) as [[E _] | (_ & _ & Mx & _)].
  { rewrite E in Fx. discriminate. }
  destruct (round_pos s' y Hy) as [[E _] | (_ & _ & My & _)].
  { rewrite E in Fy. discriminate. }
  rewrite Mx, My. clear Mx My Fx Fy.
  pose proof (ulp_exp_mono x y Hx Hxy) as He.
  pose proof (pow2_pos (ulp_exp x)) as Px. pose proof (pow2_pos (ulp_exp y)) as Py.
  assert (C : (ulp_exp x = ulp_exp y \/ ulp_exp x + 1 <= ulp_exp y)%Z) by lia.
  destruct C as [C | C].
  - rewrite C. apply Qmult_le_compat_r; [|lra].
    rewrite <- Zle_Qle. apply rne_mono.
    unfold Qdiv. apply Qmult_le_compat_r; [exact Hxy|].
    apply Qlt_le_weak, Qinv_lt_0_compat, pow2_pos.
  - pose proof (significand_range x Hx) as [_ Ux].
    assert (Ly : (2 ^ (prec - 1) <= rne (y / pow2 (ulp_exp y)))%Z).
    { rewrite <- (rne_Z (2 ^ (prec - 1))). apply rne_mono, scaled_lower; [exact Hy|].
      assert (emin <= ulp_exp x)%Z by (unfold ulp_exp; lia).
      unfold ulp_exp in C |- *. lia. }
    apply (pow2_le _ _) in C. rewrite pow2_succ in C.
    rewrite Zle_Qle in Ux, Ly.
    change (inject_Z (2 ^ prec)) with (2 * inject_Z (2 ^ (prec - 1))) in Ux.
    set (mx := inject_Z (rne (x / pow2 (ulp_exp x)))) in *.
    set (my := inject_Z (rne (y / pow2 (ulp_exp y)))) in *.
    set (h := inject_Z (2 ^ (prec - 1))) in *.
    assert (Hh : 0 < h) by reflexivity.
    apply Qle_trans with (2 * h * pow2 (ulp_exp x)).
    { apply Qmult_le_compat_r; lra. }
    apply Qle_trans with (h * pow2 (ulp_exp y)).
    { setoid_replace (2 * h * pow2 (ulp_exp x)) with (h * (2 * pow2 (ulp_exp x))) by ring.
      apply Qmult_le_l; assumption. }
    apply Qmult_le_compat_r; lra.
Qed.

(** A value already of the form [k * 2^e], with [e] the exponent of its
    last place, is returned unchanged. *)
Lemma round_exact s x k :
  0 < x -> x / pow2 (ulp_exp x) == inject_Z k ->
  is_finite (round s x) = true -> magnitude (round s x) == x.
Proof.
  intros Hx K F.
  destruct (round_pos s x Hx) as [[E _] | (_ & _ & M & _)].
  { rewrite E in F. discriminate. }
  rewrite M, K, rne_Z, <- K. apply scaled_mul.
Qed.

(** From [2^-1074] upwards the result is not a zero. *)
Lemma round_nonzero s x : pow2 emin <= x -> is_zero (round s x) = false.
Proof.
  intros Hb. pose proof (pow2_pos emin) as P.
  assert (Hx : 0 < x) by lra.
  destruct (round_pos s x Hx) as [[E _] | (_ & _ & M & _)].
  { now rewrite E. }
  destruct (round s x) eqn:R; try reflexivity. exfalso.
  cbn [magnitude] in M.
  assert (L : (1 <= rne (x / pow2 (ulp_exp x)))%Z).
  { rewrite <- (rne_Z 1). apply rne_mono.
    apply Qle_shift_div_l; [apply pow2_pos|]. rewrite Qmult_1_l.
    destruct (ilog2_spec x Hx) as [S1 _].
    unfold ulp_exp.
    destruct (Z.max_spec (ilog2 x - (prec - 1)) emin) as [[_ ->] | [_ ->]].
    - exact Hb.
    - eapply Qle_trans; [|exact S1]. apply pow2_le. unfold prec. lia. }
  rewrite Zle_Qle in L. pose proof (pow2_pos (ulp_exp x)) as Pe.
  assert (0 < inject_Z (rne (x / pow2 (ulp_exp x))) * pow2 (ulp_exp x)).
  { apply Qmult_lt_0_compat; [|exact Pe].
    eapply Qlt_le_trans; [|exact L]. reflexivity. }
  lra.
Qed.

Lemma magnitude_nonneg f : 0 <= magnitude f.
Proof.
  destruct f; cbn [magnitude]; try lra.
  apply Qmult_le_0_compat; [now rewrite <- (Zle_Qle 0) | apply Qlt_le_weak, pow2_pos].
Qed.

End Binary64Facts.

Import Binary64Facts.

(** ** The numeric built-ins and [compute_cost] *)

Module PyFacts.

Lemma bind_ok {A B} (c : result A) (k : A -> result B) b :
  bind c k = Ok b -> exists a, c = Ok a /\ k a = Ok b.
Proof. destruct c as [a | e]; simpl; [eauto | discriminate]. Qed.

Lemma finite_or_raise_ok msg f f' :
  finite_or_raise msg f = Ok f' -> f' = f /\ forall s, f <> S754_infinity s.
Proof.
  destruct f; simpl; intros H; inversion H; split; try reflexivity; discriminate.
Qed.

Lemma int_truediv_pos a b :
  0 <= a -> 0 < b ->
  int_truediv a b =
  finite_or_raise "integer division result too large for a float"
    (round false (a # Z.to_pos b)).
Proof.
  intros Ha Hb. unfold int_truediv.
  destruct (Z.eqb_spec b 0); [lia|].
  destruct (Z.ltb_spec a 0); [lia|]. destruct (Z.ltb_spec b 0); [lia|].
  now rewrite !Z.abs_eq by lia.
Qed.

Lemma Qmake_to_pos a b :
  0 < b -> (a # Z.to_pos b == inject_Z a / inject_Z b)%Q.
Proof.
  intros Hb. rewrite Qmake_Qdiv. now rewrite Z2Pos.id.
Qed.

Lemma Qmake_le_num a b : 0 <= a -> (a # b <= inject_Z a)%Q.
Proof.
  intros Ha. unfold Qle. simpl. nia.
Qed.

Lemma round_sign s x : sign (round s x) = s.
Proof.
  unfold round. destruct (x ?= 0)%Q; try reflexivity.
  destruct (_ =? _); destruct (_ <? _); try reflexivity;
    destruct (rne _); reflexivity.
Qed.

Lemma value_round_false x : value (round false x) = magnitude (round false x).
Proof. unfold value. now rewrite round_sign. Qed.

Lemma not_infinity_finite s x :
  (forall s', round s x <> S754_infinity s') -> is_finite (round s x) = true.
Proof.
  intros H. destruct (Qlt_le_dec 0 x) as [Hx | Hx].
  - destruct (round_pos s x Hx) as [[E _] | (F & _)]; [|exact F].
    now apply H in E.
  - now rewrite round_zero.
Qed.

Lemma finite_or_raise_finite msg f :
  is_finite f = true -> finite_or_raise msg f = Ok f.
Proof. destruct f; simpl; congruence. Qed.

Lemma math_ceil_ok q n :
  math_ceil q = Ok n -> is_finite q = true /\ n = Qceiling (value q).
Proof. destruct q; simpl; intros H; inversion H; auto. Qed.

Lemma int_of_float_ok q n :
  int_of_float q = Ok n -> is_finite q = true /\ n = Qtruncate (value q).
Proof. destruct q; simpl; intros H; inversion H; auto. Qed.

(** A finite result of [round] comes from an argument below [2^1024]. *)
Lemma round_finite_inv s x :
  is_finite (round s x) = true -> (x < pow2 emax)%Q.
Proof.
  intros F. destruct (Qlt_le_dec 0 x) as [Hx | Hx].
  2: { pose proof (pow2_pos emax). lra. }
  destruct (round_pos s x Hx) as [[E _] | (_ & _ & _ & O & _)].
  { rewrite E in F. discriminate. }
  destruct (ilog2_spec x Hx) as [_ S2].
  eapply Qlt_le_trans; [exact S2|]. apply pow2_le.
  unfold ulp_exp, emin, emax, prec in *. lia.
Qed.

(** The error of [a / t] on two [int]s, scaled back by [t]. *)
Lemma int_truediv_error a t f :
  0 < t -> int_truediv a t = Ok f ->
  (Qabs (value f * inject_Z t - inject_Z a)
   <= Qabs (inject_Z a) * pow2 (-53) + inject_Z t * pow2 (-1075))%Q.
Proof.
  intros Ht H. unfold int_truediv in H.
  destruct (Z.eqb_spec t 0); [lia|].
  destruct (Z.ltb_spec t 0); [lia|]. rewrite xorb_false_r in H.
  rewrite (Z.abs_eq t) in H by lia.
  apply finite_or_raise_ok in H as [-> Hf].
  apply not_infinity_finite in Hf.
  set (x := (Z.abs a # Z.to_pos t)%Q) in *.
  assert (T : (0 < inject_Z t)%Q) by (rewrite <- (Zlt_Qlt 0); lia).
  assert (X : (x * inject_Z t == inject_Z (Z.abs a))%Q).
  { unfold x. rewrite Qmake_to_pos by lia. field. lra. }
  assert (A : (0 <= inject_Z (Z.abs a))%Q) by (rewrite <- (Zle_Qle 0); lia).
  pose proof (pow2_pos (-53)) as U. pose proof (pow2_pos (-1075)) as N.
  assert (M : (Qabs (magnitude (round (a <? 0) x) - x)
               <= x * pow2 (-53) + pow2 (-1075))%Q).
  { destruct (Qlt_le_dec 0 x) as [Hx | Hx].
    - now apply round_error.
    - assert (x == 0)%Q as E.
      { apply Qle_antisym; [exact Hx|]. unfold x, Qle. cbn [Qnum Qden]. lia. }
      rewrite round_zero by exact Hx. cbn [magnitude]. rewrite E.
      setoid_replace (0 - 0)%Q with 0%Q by ring. cbn [Qabs Z.abs]. lra. }
  apply Qabs_Qle_condition in M. destruct M as [M1 M2].
  set (m := magnitude (round (a <? 0) x)) in *.
  assert (P1 : ((m - x) * inject_Z t <= (x * pow2 (-53) + pow2 (-1075)) * inject_Z t)%Q)
    by (apply Qmult_le_compat_r; lra).
  assert (P2 : (- ((x * pow2 (-53) + pow2 (-1075)) * inject_Z t) <= (m - x) * inject_Z t)%Q).
  { setoid_replace (- ((x * pow2 (-53) + pow2 (-1075)) * inject_Z t))%Q
      with (- (x * pow2 (-53) + pow2 (-1075)) * inject_Z t)%Q by ring.
    apply Qmult_le_compat_r; lra. }
  assert (R : ((x * pow2 (-53) + pow2 (-1075)) * inject_Z t
               == inject_Z (Z.abs a) * pow2 (-53) + inject_Z t * pow2 (-1075))%Q).
  { rewrite <- X. ring. }
  assert (L : ((m - x) * inject_Z t == m * inject_Z t - inject_Z (Z.abs a))%Q).
  { rewrite <- X. ring. }
  rewrite R in P1. rewrite R in P2. rewrite L in P1, P2.
  change (Qabs (inject_Z a)) with (inject_Z (Z.abs a)).
  unfold value. rewrite round_sign. fold m.
  apply Qabs_Qle_condition.
  destruct (Z.ltb_spec a 0) as [Ha | Ha].
  - rewrite (Z.abs_neq a) in * by lia. rewrite inject_Z_opp in *.
    split; lra.
  - rewrite (Z.abs_eq a) in * by lia. split; lra.
Qed.

Lemma Qtruncate_abs q : (inject_Z (Z.abs (Qtruncate q)) <= Qabs q)%Q.
Proof.
  destruct q as [n d]. unfold Qtruncate. cbn [Qnum Qden Qabs].
  rewrite <- Z.quot_abs by lia. rewrite (Z.abs_eq (Zpos d)) by lia.
  rewrite Z.quot_div_nonneg by lia.
  change (Z.abs n / Zpos d) with (Qfloor (Z.abs n # d)). apply Qfloor_le.
Qed.

(** A finite result is at most twice the argument, plus one. *)
Lemma round_upper s x :
  (0 <= x)%Q -> is_finite (round s x) = true ->
  (magnitude (round s x) <= 2 * x + 1)%Q.
Proof.
  intros Hx F. destruct (Qlt_le_dec 0 x) as [H | H].
  - pose proof (round_error s x H F) as E. apply Qabs_Qle_condition in E.
    pose proof (pow2_le (-53) 0 ltac:(lia)) as U.
    pose proof (pow2_le (-1075) 0 ltac:(lia)) as N.
    change (pow2 0) with 1%Q in U, N.
    assert (x * pow2 (-53) <= x * 1)%Q by (apply Qmult_le_l; lra). lra.
  - rewrite round_zero by exact H. cbn [magnitude]. lra.
Qed.

Lemma int_truediv_total a b :
  b <> 0 -> Z.abs a < 2 ^ 1023 ->
  exists f, int_truediv a b = Ok f /\ is_finite f = true.
Proof.
  intros Hb Ha. unfold int_truediv. destruct (Z.eqb_spec b 0); [lia|].
  eexists. split; [apply finite_or_raise_finite|]; apply round_finite;
    (eapply Qle_lt_trans; [apply Qmake_le_num; lia|]);
    rewrite pow2_Z by lia; rewrite <- Zlt_Qlt; exact Ha.
Qed.

Lemma float_of_int_total n :
  0 < n < 2 ^ 1023 ->
  exists f, float_of_int n = Ok f /\ is_finite f = true /\ is_zero f = false.
Proof.
  intros Hn. unfold float_of_int.
  assert (F : is_finite (round (n <? 0) (inject_Z (Z.abs n))) = true).
  { apply round_finite. rewrite pow2_Z by lia. rewrite <- Zlt_Qlt. lia. }
  eexists. split; [apply finite_or_raise_finite, F|]. split; [exact F|].
  apply round_nonzero. apply Qle_trans with 1%Q.
  - apply (pow2_le emin 0). unfold emin, emax, prec. lia.
  - rewrite <- (Zle_Qle 1). lia.
Qed.

Lemma math_ceil_finite q :
  is_finite q = true -> math_ceil q = Ok (Qceiling (value q)).
Proof. destruct q; simpl; congruence. Qed.

Lemma int_of_float_finite q :
  is_finite q = true -> int_of_float q = Ok (Qtruncate (value q)).
Proof. destruct q; simpl; congruence. Qed.

Lemma Qabs_value f : (Qabs (value f) == magnitude f)%Q.
Proof.
  pose proof (magnitude_nonneg f) as M. unfold value.
  destruct (sign f); [rewrite Qabs_opp|]; now apply Qabs_pos.
Qed.

Lemma abs_mul_bound a b A B :
  Z.abs a <= A -> Z.abs b <= B -> Z.abs (a * b) <= A * B.
Proof.
  intros Ha Hb. rewrite Z.abs_mul.
  apply Z.mul_le_mono_nonneg; lia.
Qed.

End PyFacts.

Module AppFacts.
Import PyFacts.

Lemma float_of_int_billion : float_of_int 1000000000 = Ok billion.
Proof. vm_compute. reflexivity. Qed.

Lemma magnitude_billion : (magnitude billion == 1000000000)%Q.
Proof. vm_compute. reflexivity. Qed.

Lemma compute_cost_locals_inv p t b g l :
  compute_cost_locals p t b g = Ok l ->
  0 < t /\ 0 < b /\
  (exists q, int_truediv t b = Ok q /\ math_ceil q = Ok (batches l)) /\
  total_proof_gas l = batches l * proof_gas p /\
  total_overhead_gas l = batches l * overhead_gas_per_batch p /\
  total_calldata_gas l = t * calldata_gas_per_tx p /\
  total_gas l = total_proof_gas l + total_overhead_gas l + total_calldata_gas l /\
  wei_from_gwei g = Ok (gas_price_wei l) /\
  total_fee_wei l = total_gas l * gas_price_wei l /\
  eth_from_wei (total_fee_wei l) = Ok (total_fee_eth l) /\
  int_truediv (total_gas l) t = Ok (per_tx_gas l) /\
  float_truediv_int (total_fee_eth l) t = Ok (per_tx_fee_eth l).
Proof.
  unfold compute_cost_locals.
  destruct (Z.leb_spec t 0) as [|Ht]; [discriminate|].
  destruct (Z.leb_spec b 0) as [|Hb]; [discriminate|].
  intros H.
  apply bind_ok in H as (q & Hq & H).
  apply bind_ok in H as (n & Hn & H).
  apply bind_ok in H as (w & Hw & H).
  apply bind_ok in H as (fe & Hfe & H).
  apply bind_ok in H as (pg & Hpg & H).
  apply bind_ok in H as (pf & Hpf & H).
  inversion H; subst l; clear H.
  cbn [batches total_proof_gas total_overhead_gas total_calldata_gas total_gas
       gas_price_wei total_fee_wei total_fee_eth per_tx_gas per_tx_fee_eth].
  repeat split; try assumption. exists q. split; assumption.
Qed.

Lemma compute_cost_inv p t b g s :
  compute_cost p t b g = Ok s ->
  exists l, compute_cost_locals p t b g = Ok l /\ s = summary_dict p t b g l.
Proof.
  unfold compute_cost. intros H. apply bind_ok in H as (l & Hl & H).
  inversion H. eauto.
Qed.

(** The batch count is the ceiling of the rounded quotient. *)
Lemma batches_spec p t b g l :
  compute_cost_locals p t b g = Ok l ->
  let q := round false (t # Z.to_pos b) in
  is_finite q = true /\ batches l = Qceiling (magnitude q).
Proof.
  intros H. apply compute_cost_locals_inv in H as (Ht & Hb & (q & Hq & Hn) & _).
  rewrite int_truediv_pos in Hq by lia.
  apply finite_or_raise_ok in Hq as [-> Hq].
  apply math_ceil_ok in Hn as [F ->].
  split; [exact F|]. now rewrite value_round_false.
Qed.

(** Batches never decrease when transactions are added. *)
Lemma batches_mono p t1 t2 b g l1 l2 :
  t1 <= t2 ->
  compute_cost_locals p t1 b g = Ok l1 ->
  compute_cost_locals p t2 b g = Ok l2 ->
  0 <= batches l1 <= batches l2.
Proof.
  intros Ht H1 H2.
  pose proof (batches_spec _ _ _ _ _ H1) as [F1 ->].
  pose proof (batches_spec _ _ _ _ _ H2) as [F2 ->].
  apply compute_cost_locals_inv in H1 as (Ht1 & Hb & _).
  split.
  - rewrite <- (Qceiling_Z 0). apply Qceiling_resp_le, magnitude_nonneg.
  - apply Qceiling_resp_le, round_mono; try assumption.
    + unfold Qlt. cbn [Qnum Qden]. lia.
    + unfold Qle. cbn [Qnum Qden]. apply Z.mul_le_mono_nonneg_r; lia.
Qed.

(** Below [2^53] an integer is its own binary64. *)
Lemma round_small_int s k :
  0 < k < 2 ^ prec -> (magnitude (round s (inject_Z k)) == inject_Z k)%Q.
Proof.
  intros Hk.
  assert (Hx : (0 < inject_Z k)%Q) by (rewrite <- (Zlt_Qlt 0); lia).
  assert (Hb : (inject_Z k < pow2 prec)%Q).
  { rewrite pow2_Z by (unfold prec; lia). rewrite <- Zlt_Qlt. lia. }
  destruct (ilog2_spec _ Hx) as [S1 _].
  assert (L : ilog2 (inject_Z k) < prec).
  { apply pow2_lt_inv. eapply Qle_lt_trans; eassumption. }
  assert (E : emin <= ulp_exp (inject_Z k) <= 0).
  { unfold ulp_exp, emin, emax, prec in *. lia. }
  apply (round_exact s _ (k * 2 ^ (- ulp_exp (inject_Z k)))); [exact Hx | |].
  - rewrite pow2_div, inject_Z_mult, pow2_Z by lia. reflexivity.
  - apply round_finite. eapply Qlt_trans; [exact Hb|]. apply pow2_lt. reflexivity.
Qed.

(** [wei_from_gwei] truncates the binary64 product, which is within half
    a unit in the last place of the exact one. *)
Lemma wei_from_gwei_spec g w :
  wei_from_gwei g = Ok w ->
  is_finite g = true /\
  is_finite (mul g billion) = true /\
  w = Qtruncate (value (mul g billion)) /\
  (Qabs (value (mul g billion) - value g * 1000000000)
   <= Qabs (value g * 1000000000) * pow2 (-53) + pow2 (-1075))%Q.
Proof.
  unfold wei_from_gwei, float_mul_int. rewrite float_of_int_billion.
  cbn [bind]. intros H. apply int_of_float_ok in H as [F ->].
  pose proof (pow2_pos (-53)) as U. pose proof (pow2_pos (-1075)) as N.
  destruct g as [s | s | | s m e]; try discriminate.
  - repeat split; try assumption.
    destruct s; cbn [mul billion xorb value sign magnitude];
      match goal with |- (Qabs ?a <= _)%Q => setoid_replace a with 0%Q by ring end;
      cbn [Qabs Z.abs]; lra.
  - repeat split; try assumption.
    set (g := S754_finite s m e) in *.
    assert (Hx : (0 < magnitude g * magnitude billion)%Q).
    { apply Qmult_lt_0_compat; [|now rewrite magnitude_billion].
      apply Qmult_lt_0_compat; [reflexivity | apply pow2_pos]. }
    change (mul g billion) with (round (xorb s false) (magnitude g * magnitude billion)) in *.
    pose proof (round_error _ _ Hx F) as E.
    unfold value. rewrite round_sign, xorb_false_r. cbn [sign g].
    rewrite xorb_false_r in E. clear F.
    set (r := magnitude (round s (magnitude g * magnitude billion))) in *.
    clearbody r.
    rewrite magnitude_billion in E, Hx.
    apply Qabs_Qle_condition in E. destruct E as [E1 E2].
    destruct s.
    + setoid_replace (Qabs (- magnitude g * 1000000000))%Q
        with (magnitude g * 1000000000)%Q.
      * apply Qabs_Qle_condition. split; lra.
      * setoid_replace (- magnitude g * 1000000000)%Q
          with (- (magnitude g * 1000000000))%Q by ring.
        rewrite Qabs_opp. apply Qabs_pos. lra.
    + rewrite (Qabs_pos (magnitude g * 1000000000)) by lra.
      apply Qabs_Qle_condition. split; lra.
Qed.

(** Below [2^53] the batch count is the exact ceiling. *)
Lemma batches_exact p t b g l :
  0 < t < 2 ^ 53 -> 0 < b < 2 ^ 53 ->
  compute_cost_locals p t b g = Ok l ->
  batches l = Qceiling (inject_Z t / inject_Z b).
Proof.
  intros Ht Hb H. pose proof (batches_spec _ _ _ _ _ H) as [F ->].
  rewrite <- (Qceiling_comp _ _ (Qmake_to_pos t b ltac:(lia))).
  set (x := (t # Z.to_pos b)%Q) in *.
  set (k := Qceiling x).
  assert (T : (0 < inject_Z t)%Q) by (rewrite <- (Zlt_Qlt 0); lia).
  assert (B : (0 < inject_Z b)%Q) by (rewrite <- (Zlt_Qlt 0); lia).
  assert (X : (x * inject_Z b == inject_Z t)%Q).
  { unfold x. rewrite Qmake_to_pos by lia. field. lra. }
  assert (Hx : (0 < x)%Q) by (unfold x, Qlt; cbn [Qnum Qden]; lia).
  pose proof (Qle_ceiling x) as K1. pose proof (Qceiling_lt x) as K2. fold k in K1, K2.
  assert (Kt : k <= t).
  { unfold k. rewrite <- (Qceiling_Z t). apply Qceiling_resp_le.
    unfold x. apply Qmake_le_num. lia. }
  assert (K0 : 0 < k).
  { rewrite (Zlt_Qlt 0). change (inject_Z 0) with 0%Q. lra. }
  apply Z.le_antisymm.
  - (* the rounded quotient does not pass the integer [k] *)
    rewrite <- (Qceiling_Z k). apply Qceiling_resp_le.
    rewrite <- (round_small_int false k) by (unfold prec; lia).
    apply round_mono; try assumption.
    apply round_finite. apply Qle_lt_trans with (inject_Z t).
    + rewrite <- Zle_Qle. exact Kt.
    + rewrite pow2_Z by lia. rewrite <- Zlt_Qlt. lia.
  - (* nor does it fall to [k - 1] *)
    set (m := magnitude (round false x)) in *.
    enough (L : (inject_Z (k - 1) < m)%Q).
    { pose proof (Qle_ceiling m) as C.
      assert (C' : (inject_Z (k - 1) < inject_Z (Qceiling m))%Q) by lra.
      rewrite <- Zlt_Qlt in C'. lia. }
    pose proof (round_error false x Hx F) as E. fold m in E.
    apply Qabs_Qle_condition in E. destruct E as [E1 _].
    (* integers: [(k - 1) * b + 1 <= t] *)
    assert (G : (k - 1) * b + 1 <= t).
    { assert (G' : (inject_Z ((k - 1) * b) < inject_Z t)%Q).
      { rewrite inject_Z_mult, <- X. apply Qmult_lt_compat_r; assumption. }
      rewrite <- Zlt_Qlt in G'. lia. }
    rewrite Zle_Qle, inject_Z_plus, inject_Z_mult in G.
    change (inject_Z 1) with 1%Q in G.
    (* the error, scaled by [b], is below one *)
    assert (S1 : (inject_Z t * pow2 (-53) <= 1 - pow2 (-53))%Q).
    { assert (Ht' : (inject_Z t <= inject_Z (2 ^ 53 - 1))%Q) by (rewrite <- Zle_Qle; lia).
      pose proof (pow2_pos (-53)) as U.
      assert ((inject_Z t * pow2 (-53) <= inject_Z (2 ^ 53 - 1) * pow2 (-53))%Q)
        by (apply Qmult_le_compat_r; lra).
      assert ((inject_Z (2 ^ 53 - 1) * pow2 (-53) == 1 - pow2 (-53))%Q)
        by (vm_compute; reflexivity).
      lra. }
    assert (S2 : (pow2 (-1075) * inject_Z b < pow2 (-53))%Q).
    { assert (Hb' : (inject_Z b < inject_Z (2 ^ 53))%Q) by (rewrite <- Zlt_Qlt; lia).
      pose proof (pow2_pos (-1075)) as N.
      assert ((pow2 (-1075) * inject_Z b < pow2 (-1075) * inject_Z (2 ^ 53))%Q)
        by (apply Qmult_lt_l; assumption).
      assert ((pow2 (-1075) * inject_Z (2 ^ 53) < pow2 (-53))%Q)
        by (vm_compute; reflexivity).
      lra. }
    assert (P : ((- (x * pow2 (-53) + pow2 (-1075))) * inject_Z b
                 <= (m - x) * inject_Z b)%Q)
      by (apply Qmult_le_compat_r; lra).
    assert (R : ((- (x * pow2 (-53) + pow2 (-1075))) * inject_Z b
                 == - (inject_Z t * pow2 (-53) + pow2 (-1075) * inject_Z b))%Q).
    { rewrite <- X. ring. }
    assert (R' : ((m - x) * inject_Z b == m * inject_Z b - inject_Z t)%Q).
    { rewrite <- X. ring. }
    rewrite R, R' in P.
    apply (Qmult_lt_r _ _ (inject_Z b) B). lra.
Qed.

(** *** When [compute_cost] returns *)

Lemma batches_upper t b :
  0 < t -> 0 < b -> is_finite (round false (t # Z.to_pos b)) = true ->
  0 <= Qceiling (value (round false (t # Z.to_pos b))) <= 2 * t + 1.
Proof.
  intros Ht Hb F. rewrite value_round_false. split.
  - rewrite <- (Qceiling_Z 0). apply Qceiling_resp_le, magnitude_nonneg.
  - rewrite <- (Qceiling_Z (2 * t + 1)). apply Qceiling_resp_le.
    assert (X : (0 <= t # Z.to_pos b)%Q) by (unfold Qle; cbn [Qnum Qden]; lia).
    pose proof (round_upper false _ X F) as U.
    pose proof (Qmake_le_num t (Z.to_pos b) ltac:(lia)) as L.
    rewrite inject_Z_plus, inject_Z_mult. change (inject_Z 2) with 2%Q.
    change (inject_Z 1) with 1%Q. lra.
Qed.

Lemma wei_from_gwei_total g :
  is_finite g = true -> (magnitude g < pow2 256)%Q ->
  exists w, wei_from_gwei g = Ok w /\ Z.abs w <= 2 ^ 288.
Proof.
  intros Fg Hg. unfold wei_from_gwei, float_mul_int.
  rewrite float_of_int_billion. cbn [bind].
  assert (F : is_finite (mul g billion) = true).
  { destruct g as [s | s | | s m e]; try discriminate; [reflexivity|].
    change (is_finite (round (xorb s false)
              (magnitude (S754_finite s m e) * magnitude billion)) = true).
    apply round_finite. rewrite magnitude_billion.
    apply Qlt_trans with (pow2 256 * 1000000000)%Q.
    - apply Qmult_lt_compat_r; [reflexivity | exact Hg].
    - vm_compute. reflexivity. }
  rewrite (int_of_float_finite _ F). eexists. split; [reflexivity|].
  pose proof (Qtruncate_abs (value (mul g billion))) as T.
  rewrite Qabs_value in T.
  assert (M : (magnitude (mul g billion) <= inject_Z (2 ^ 288))%Q).
  { destruct g as [s | s | | s m e]; [ | discriminate | discriminate | ].
    - cbn [mul billion magnitude]. rewrite <- (Zle_Qle 0). lia.
    - change (mul (S754_finite s m e) billion)
        with (round (xorb s false) (magnitude (S754_finite s m e) * magnitude billion)) in *.
      set (x := (magnitude (S754_finite s m e) * magnitude billion)%Q) in *.
      assert (X : (0 <= x)%Q).
      { apply Qmult_le_0_compat; apply magnitude_nonneg. }
      pose proof (round_upper _ _ X F) as U.
      assert (B : (x <= pow2 256 * 1000000000)%Q).
      { unfold x. rewrite magnitude_billion.
        apply Qmult_le_compat_r; [lra | discriminate]. }
      assert (C : (2 * (pow2 256 * 1000000000) + 1 <= inject_Z (2 ^ 288))%Q)
        by (vm_compute; discriminate).
      lra. }
  rewrite Zle_Qle. lra.
Qed.

Lemma compute_cost_locals_total p t b g :
  0 < t < 2 ^ 256 -> 0 < b ->
  Z.abs (proof_gas p) < 2 ^ 256 ->
  Z.abs (calldata_gas_per_tx p) < 2 ^ 256 ->
  Z.abs (overhead_gas_per_batch p) < 2 ^ 256 ->
  is_finite g = true -> (magnitude g < pow2 256)%Q ->
  exists l, compute_cost_locals p t b g = Ok l.
Proof.
  intros Ht Hb Hp Hc Ho Fg Hg. unfold compute_cost_locals.
  destruct (Z.leb_spec t 0); [lia|]. destruct (Z.leb_spec b 0); [lia|].
  assert (P : 2 ^ 256 < 2 ^ 1023) by (apply Z.pow_lt_mono_r; lia).
  (* the batch count *)
  rewrite int_truediv_pos by lia.
  assert (Fq : is_finite (round false (t # Z.to_pos b)) = true).
  { apply round_finite. eapply Qle_lt_trans; [apply Qmake_le_num; lia|].
    rewrite pow2_Z by lia. rewrite <- Zlt_Qlt. lia. }
  rewrite (finite_or_raise_finite _ _ Fq). cbn [bind].
  rewrite (math_ceil_finite _ Fq). cbn [bind].
  pose proof (batches_upper t b ltac:(lia) Hb Fq) as Hn.
  set (n := Qceiling (value (round false (t # Z.to_pos b)))) in *.
  (* the gas price in wei *)
  destruct (wei_from_gwei_total g Fg Hg) as (w & -> & Hw). cbn [bind].
  (* the totals *)
  set (G := n * proof_gas p + n * overhead_gas_per_batch p
            + t * calldata_gas_per_tx p).
  assert (HG : Z.abs G <= 5 * (2 ^ 256 * 2 ^ 256)).
  { pose proof (abs_mul_bound n (proof_gas p) (2 * 2 ^ 256) (2 ^ 256)
                  ltac:(lia) ltac:(lia)).
    pose proof (abs_mul_bound n (overhead_gas_per_batch p) (2 * 2 ^ 256) (2 ^ 256)
                  ltac:(lia) ltac:(lia)).
    pose proof (abs_mul_bound t (calldata_gas_per_tx p) (2 ^ 256) (2 ^ 256)
                  ltac:(lia) ltac:(lia)).
    unfold G. lia. }
  assert (HF : Z.abs (G * w) <= 5 * (2 ^ 256 * 2 ^ 256) * 2 ^ 288)
    by (apply abs_mul_bound; assumption).
  assert (Q1 : 5 * (2 ^ 256 * 2 ^ 256) * 2 ^ 288 < 2 ^ 1023) by (vm_compute; reflexivity).
  assert (Q2 : 5 * (2 ^ 256 * 2 ^ 256) < 2 ^ 1023) by (vm_compute; reflexivity).
  unfold eth_from_wei.
  destruct (int_truediv_total (G * w) 1000000000000000000 ltac:(lia) ltac:(lia))
    as (fe & -> & _). cbn [bind].
  destruct (int_truediv_total G t ltac:(lia) ltac:(lia)) as (pg & -> & _). cbn [bind].
  unfold float_truediv_int.
  destruct (float_of_int_total t ltac:(lia)) as (y & -> & _ & Zy). cbn [bind].
  rewrite Zy. eexists. reflexivity.
Qed.

End AppFacts.

Import PyFacts.
Import AppFacts.

(** ** What the built-ins raise *)

Module RaiseFacts.

Lemma finite_or_raise_raise msg f e :
  finite_or_raise msg f = Raise e -> e = OverflowError msg.
Proof. destruct f; cbn; congruence. Qed.

Lemma int_truediv_raise a b e :
  b <> 0 -> int_truediv a b = Raise e ->
  e = OverflowError "integer division result too large for a float".
Proof.
  intros Hb. unfold int_truediv.
  destruct (b =? 0) eqn:E; [apply Z.eqb_eq in E; contradiction|].
  apply finite_or_raise_raise.
Qed.

Lemma float_of_int_raise n e :
  float_of_int n = Raise e -> e = OverflowError "int too large to convert to float".
Proof. apply finite_or_raise_raise. Qed.

Lemma round_not_nan s x : round s x <> S754_nan.
Proof.
  intros H. destruct (Qlt_le_dec 0 x) as [Hx | Hx].
  - destruct (round_pos s x Hx) as [[E _] | (F & _)]; rewrite H in *; discriminate.
  - rewrite round_zero in H by exact Hx. discriminate.
Qed.

Lemma int_truediv_finite a b f : int_truediv a b = Ok f -> is_finite f = true.
Proof.
  unfold int_truediv. destruct (b =? 0); [discriminate|].
  intros H. apply finite_or_raise_ok in H as [-> H].
  now apply not_infinity_finite.
Qed.

Lemma float_of_int_finite n f : float_of_int n = Ok f -> is_finite f = true.
Proof.
  unfold float_of_int. intros H. apply finite_or_raise_ok in H as [-> H].
  now apply not_infinity_finite.
Qed.

Lemma float_of_int_nonzero n f : 0 < n -> float_of_int n = Ok f -> is_zero f = false.
Proof.
  unfold float_of_int. intros Hn H. apply finite_or_raise_ok in H as [-> _].
  apply round_nonzero. rewrite Z.abs_eq by lia.
  apply Qle_trans with 1%Q.
  - change 1%Q with (pow2 0). apply pow2_le. unfold emin, emax, prec. lia.
  - change 1%Q with (inject_Z 1). rewrite <- Zle_Qle. lia.
Qed.

Lemma int_of_float_raise x e :
  int_of_float x = Raise e ->
  e = ValueError "cannot convert float NaN to integer" \/
  e = OverflowError "cannot convert float infinity to integer".
Proof. destruct x; cbn; intros H; inversion H; auto. Qed.

Lemma wei_from_gwei_raise g e :
  wei_from_gwei g = Raise e ->
  e = ValueError "cannot convert float NaN to integer" \/
  e = OverflowError "cannot convert float infinity to integer".
Proof.
  unfold wei_from_gwei, float_mul_int. rewrite float_of_int_billion. cbn [bind].
  apply int_of_float_raise.
Qed.

End RaiseFacts.

Import RaiseFacts.

(** ** What [compute_cost] raises, and the paths through [main] *)

Module MainFacts.

(** *** What [compute_cost] can raise *)

Lemma compute_cost_locals_nonpositive_tx p t b g :
  t <= 0 -> compute_cost_locals p t b g = Raise (ValueError "tx_count must be positive.").
Proof.
  intros Ht. unfold compute_cost_locals.
  destruct (Z.leb_spec t 0); [reflexivity | lia].
Qed.

Lemma compute_cost_locals_nonpositive_batch p t b g :
  0 < t -> b <= 0 ->
  compute_cost_locals p t b g = Raise (ValueError "batch_size must be positive.").
Proof.
  intros Ht Hb. unfold compute_cost_locals.
  destruct (Z.leb_spec t 0); [lia|].
  destruct (Z.leb_spec b 0); [reflexivity | lia].
Qed.

(** Past the two validations only a NaN gas price gives a [ValueError];
    everything else that goes wrong is an [OverflowError]. *)
Lemma compute_cost_locals_raise p t b g e :
  0 < t -> 0 < b -> compute_cost_locals p t b g = Raise e ->
  e = ValueError "cannot convert float NaN to integer" \/
  exists msg, e = OverflowError msg.
Proof.
  intros Ht Hb. unfold compute_cost_locals.
  destruct (Z.leb_spec t 0); [lia|]. destruct (Z.leb_spec b 0); [lia|].
  destruct (int_truediv t b) as [q | e1] eqn:Hq; cbn [bind].
  2: { intros X; inversion X; subst. right. eexists.
       apply (int_truediv_raise t b); [lia | exact Hq]. }
  rewrite (math_ceil_finite q (int_truediv_finite _ _ _ Hq)). cbn [bind].
  destruct (wei_from_gwei g) as [w | e1] eqn:Hw; cbn [bind].
  2: { intros X; inversion X; subst.
       destruct (wei_from_gwei_raise _ _ Hw) as [-> | ->]; [now left | right; eauto]. }
  unfold eth_from_wei.
  match goal with |- context [int_truediv ?a 1000000000000000000] =>
    destruct (int_truediv a 1000000000000000000) as [fe | e1] eqn:Hfe end; cbn [bind].
  2: { intros X; inversion X; subst. right. eexists.
       eapply int_truediv_raise; [|exact Hfe]. lia. }
  match goal with |- context [int_truediv ?a t] =>
    destruct (int_truediv a t) as [pg | e1] eqn:Hpg end; cbn [bind].
  2: { intros X; inversion X; subst. right. eexists.
       eapply int_truediv_raise; [|exact Hpg]. lia. }
  unfold float_truediv_int.
  destruct (float_of_int t) as [y | e1] eqn:Hy; cbn [bind].
  2: { intros X; inversion X; subst. right. eexists.
       eapply float_of_int_raise. exact Hy. }
  rewrite (float_of_int_nonzero t y Ht Hy). cbn [bind]. discriminate.
Qed.

Lemma compute_cost_raise p t b g e :
  compute_cost p t b g = Raise e <-> compute_cost_locals p t b g = Raise e.
Proof.
  unfold compute_cost. destruct (compute_cost_locals p t b g); cbn [bind].
  - split; discriminate.
  - split; intros X; inversion X; reflexivity.
Qed.

Lemma compute_cost_ok p t b g l :
  compute_cost_locals p t b g = Ok l ->
  compute_cost p t b g = Ok (summary_dict p t b g l).
Proof. unfold compute_cost. now intros ->. Qed.

(** *** The paths through [main] *)

Lemma custom_not_registered : get "custom" PROFILES = None.
Proof. reflexivity. Qed.

Lemma registry_not_custom k p :
  get k PROFILES = Some p -> String.eqb k "custom" = false.
Proof.
  intros H. destruct (String.eqb_spec k "custom") as [-> | _]; [|reflexivity].
  rewrite custom_not_registered in H. discriminate.
Qed.

(** *** Printing a report *)

Lemma str_of_int_cases n :
  str_of_int n = Ok tt \/ str_of_int n = Raise int_str_error.
Proof. unfold str_of_int. destruct (_ <? _); auto. Qed.

Lemma json_dumps_cases d :
  json_dumps d = Ok tt \/ json_dumps d = Raise int_str_error.
Proof.
  induction d as [| [k v] d IH]; [now left|].
  destruct v as [x | n | f]; cbn [json_dumps]; try exact IH.
  destruct (str_of_int_cases n) as [-> | ->]; cbn [bind]; [exact IH | now right].
Qed.

Lemma print_json_cases s out :
  print_json s out = (Ok tt, (out ++ [JsonReport s])%list) \/
  print_json s out = (Raise int_str_error, out).
Proof.
  unfold print_json.
  destruct (json_dumps_cases s) as [-> | ->]; [now left | now right].
Qed.

(** On a dict of the shape [compute_cost] returns, the only f-strings of
    [print_human] that can fail are the ten that format an [int], lines 5
    to 18 of the report. *)
Lemma print_lines_shape (k n d : string) (t b ba pg cg og tp to tc tg : Z)
    (gp ptg tfe ptf : float) r :
  r = print_lines
        [ ("profile", VStr k); ("profileName", VStr n); ("description", VStr d);
          ("txCount", VInt t); ("batchSize", VInt b); ("batches", VInt ba);
          ("gasPriceGwei", VFloat gp); ("proofGasPerBatch", VInt pg);
          ("calldataGasPerTx", VInt cg); ("overheadGasPerBatch", VInt og);
          ("totalProofGas", VInt tp); ("totalOverheadGas", VInt to);
          ("totalCalldataGas", VInt tc); ("totalGas", VInt tg);
          ("perTxGas", VFloat ptg); ("totalFeeEth", VFloat tfe);
          ("perTxFeeEth", VFloat ptf) ] human_report 0 ->
  (exists m, r = (Ok tt, m)) \/
  (exists m, (4 <= m <= 17)%nat /\ r = (Raise int_str_error, m)).
Proof.
  intros H. cbv -[str_of_int int_str_error] in H.
  repeat match type of H with
         | context [str_of_int ?z] =>
             let E := fresh in
             destruct (str_of_int_cases z) as [E | E]; rewrite E in H;
             cbv -[str_of_int int_str_error] in H;
             [ | right; eexists; split; [ | exact H]; lia ]
         end.
  left. eexists. exact H.
Qed.

Lemma print_human_summary p t b g l out :
  print_human (summary_dict p t b g l) out =
    (Ok tt, (out ++ [HumanReport (summary_dict p t b g l)])%list) \/
  exists m, (4 <= m <= 17)%nat /\
    print_human (summary_dict p t b g l) out =
      (Raise int_str_error,
       (out ++ [HumanReportLines (summary_dict p t b g l) m])%list).
Proof.
  unfold print_human.
  destruct (print_lines_shape (key p) (name p) (description p) t b (batches l)
              (proof_gas p) (calldata_gas_per_tx p) (overhead_gas_per_batch p)
              (total_proof_gas l) (total_overhead_gas l) (total_calldata_gas l)
              (total_gas l) g (per_tx_gas l) (total_fee_eth l) (per_tx_fee_eth l)
              (print_lines (summary_dict p t b g l) human_report 0) eq_refl)
    as [[m E] | (m & R & E)]; rewrite E.
  - now left.
  - right. now exists m.
Qed.

(** *** Running [main] *)

Lemma main_parse_error parse_args e out0 out :
  parse_args out0 = (Raise e, out) -> main parse_args out0 = (Raise e, out).
Proof. intros P. unfold main, seq. now rewrite P. Qed.

Lemma main_parsed parse_args args out0 out :
  parse_args out0 = (Ok args, out) ->
  main parse_args out0 = main (ret args) out.
Proof. intros P. unfold main. unfold seq at 1 3. now rewrite P. Qed.

(** Once a profile is chosen, [main] prints the report, or the message of
    a [ValueError], or lets any other exception through. *)
Lemma main_selected parse_args args p out0 out :
  parse_args out0 = (Ok args, out) ->
  arg_list_profiles args = false ->
  get (arg_profile args) PROFILES = Some p \/
  (arg_profile args = "custom" /\ build_custom_profile args out = (Ok p, out)) ->
  main parse_args out0 =
  match compute_cost p (arg_tx_count args) (arg_batch_size args)
          (arg_gas_price_gwei args) with
  | Ok summary =>
      (if arg_json args then print_json summary else print_human summary) out
  | Raise (ValueError e) =>
      (Raise (SystemExit 1), (out ++ [Line (cross_mark ++ " " ++ e)])%list)
  | Raise e => (Raise e, out)
  end.
Proof.
  intros P L S. unfold main. unfold seq at 1. rewrite P, L.
  assert (E : (if String.eqb (arg_profile args) "custom"
               then build_custom_profile args
               else match get (arg_profile args) PROFILES with
                    | Some prof => ret prof
                    | None => raise (KeyError (arg_profile args))
                    end) out = (Ok p, out)).
  { destruct S as [S | [S B]].
    - rewrite (registry_not_custom _ _ S), S. reflexivity.
    - rewrite S. exact B. }
  unfold seq at 1. rewrite E.
  unfold seq at 1.
  destruct (compute_cost p (arg_tx_count args) (arg_batch_size args)
              (arg_gas_price_gwei args)) as [s | e].
  - unfold ret. reflexivity.
  - destruct e; reflexivity.
Qed.

Lemma missing_options_nil args :
  missing_options args = [] <->
  exists pg cg og,
    arg_proof_gas args = Some pg /\ arg_calldata_gas_per_tx args = Some cg /\
    arg_overhead_gas_per_batch args = Some og.
Proof.
  unfold missing_options.
  destruct (arg_proof_gas args) as [pg|], (arg_calldata_gas_per_tx args) as [cg|],
    (arg_overhead_gas_per_batch args) as [og|]; cbn [app]; split;
    try discriminate; try (intros (? & ? & ? & ? & ? & ?); discriminate).
  - intros _. now exists pg, cg, og.
  - reflexivity.
Qed.

Lemma build_custom_profile_missing args out :
  missing_options args <> [] ->
  build_custom_profile args out =
  (Raise (SystemExit 1),
   (out ++ [Line (cross_mark ++ " Missing required options for custom profile: "
                  ++ String.concat ", " (missing_options args))])%list).
Proof.
  intros M. unfold build_custom_profile.
  destruct (missing_options args); [contradiction|]. reflexivity.
Qed.

Lemma build_custom_profile_given args pg cg og out :
  arg_proof_gas args = Some pg -> arg_calldata_gas_per_tx args = Some cg ->
  arg_overhead_gas_per_batch args = Some og ->
  build_custom_profile args out = (Ok (custom_profile pg cg og), out).
Proof.
  intros P C O. unfold build_custom_profile, missing_options.
  rewrite P, C, O. reflexivity.
Qed.

Lemma build_custom_profile_ok args p out out' :
  build_custom_profile args out = (Ok p, out') ->
  out' = out /\
  exists pg cg og,
    arg_proof_gas args = Some pg /\ arg_calldata_gas_per_tx args = Some cg /\
    arg_overhead_gas_per_batch args = Some og /\ p = custom_profile pg cg og.
Proof.
  destruct (arg_proof_gas args) as [pg|] eqn:P,
    (arg_calldata_gas_per_tx args) as [cg|] eqn:C,
    (arg_overhead_gas_per_batch args) as [og|] eqn:O.
  1: { rewrite (build_custom_profile_given args pg cg og out P C O).
       intros H; inversion H; subst. split; [reflexivity|]. now exists pg, cg, og. }
  all: rewrite build_custom_profile_missing;
    [discriminate | unfold missing_options; rewrite P, C, O; discriminate].
Qed.

Lemma main_custom_missing parse_args args out0 out :
  parse_args out0 = (Ok args, out) ->
  arg_list_profiles args = false -> arg_profile args = "custom" ->
  missing_options args <> [] ->
  main parse_args out0 =
  (Raise (SystemExit 1),
   (out ++ [Line (cross_mark ++ " Missing required options for custom profile: "
                  ++ String.concat ", " (missing_options args))])%list).
Proof.
  intros P L S M. unfold main. unfold seq at 1. rewrite P, L, S.
  cbn [String.eqb Ascii.eqb Bool.eqb].
  unfold seq at 1. now rewrite build_custom_profile_missing.
Qed.

End MainFacts.

Import MainFacts.

(** ** Exact results *)

Module NumericFacts.

(** [round] depends on the value of its argument only, not on how the
    fraction is written. *)
Lemma ilog2_comp x y : (0 < x)%Q -> (x == y)%Q -> ilog2 x = ilog2 y.
Proof.
  intros Hx E. symmetry.
  destruct (ilog2_spec x Hx) as [L U].
  apply ilog2_unique; rewrite <- E; assumption.
Qed.

Lemma round_comp s x y : (x == y)%Q -> round s x = round s y.
Proof.
  intros E. unfold round.
  assert (C : (x ?= 0)%Q = (y ?= 0)%Q) by now rewrite E.
  rewrite <- C. destruct (x ?= 0)%Q eqn:X; try reflexivity.
  assert (Hx : (0 < x)%Q) by (apply Qgt_alt; exact X).
  assert (U : ulp_exp x = ulp_exp y)
    by (unfold ulp_exp; now rewrite (ilog2_comp x y Hx E)).
  rewrite <- U.
  assert (R : rne (x / pow2 (ulp_exp x)) = rne (y / pow2 (ulp_exp x)))
    by (apply rne_comp, Qdiv_comp; [exact E | reflexivity]).
  rewrite <- R. reflexivity.
Qed.

Lemma Qtruncate_eq_Z q k : (q == inject_Z k)%Q -> Qtruncate q = k.
Proof.
  unfold Qeq, Qtruncate. cbn [inject_Z Qnum Qden]. intros E.
  rewrite Z.mul_1_r in E. rewrite E. apply Z.quot_mul. discriminate.
Qed.

(** A float that [round] returned finite and non-zero. *)
Lemma round_finite_nonzero_form s x :
  is_finite (round s x) = true -> is_zero (round s x) = false ->
  exists m e, round s x = S754_finite s m e.
Proof.
  intros F Z. pose proof (round_sign s x) as S.
  destruct (round s x) as [s' | s' | | s' m e]; try discriminate.
  cbn [sign] in S. subst s'. now exists m, e.
Qed.

Lemma one_ge_pow2_emin : (pow2 emin <= 1)%Q.
Proof. apply (pow2_le emin 0). unfold emin, emax, prec. lia. Qed.

Lemma mul_finite s m e s' m' e' :
  mul (S754_finite s m e) (S754_finite s' m' e') =
  round (xorb s s')
    (magnitude (S754_finite s m e) * magnitude (S754_finite s' m' e')).
Proof. reflexivity. Qed.

Lemma div_finite s m e s' m' e' :
  div (S754_finite s m e) (S754_finite s' m' e') =
  round (xorb s s')
    (magnitude (S754_finite s m e) / magnitude (S754_finite s' m' e')).
Proof. reflexivity. Qed.

Lemma pow2_big_Z n k : 0 <= k -> n < 2 ^ k -> (inject_Z n < pow2 k)%Q.
Proof. intros Hk H. rewrite pow2_Z by exact Hk. now rewrite <- Zlt_Qlt. Qed.

(** Integer gas prices: [float(n) * 1e9] is exact while it stays below
    [2^53]. *)
Lemma wei_from_gwei_int n f :
  Z.abs n * 1000000000 < 2 ^ 53 ->
  float_of_int n = Ok f -> wei_from_gwei f = Ok (n * 1000000000).
Proof.
  intros Hn H. unfold float_of_int in H.
  apply finite_or_raise_ok in H as [-> _].
  destruct (Z.eq_dec n 0) as [-> | N0]; [vm_compute; reflexivity|].
  set (k := Z.abs n) in *. set (s := n <? 0).
  assert (S : s = (n <? 0)) by reflexivity. clearbody s.
  assert (Hk : 0 < k < 2 ^ prec) by (unfold k, prec; lia).
  assert (Hx : (1 <= inject_Z k)%Q) by (rewrite <- (Zle_Qle 1); lia).
  assert (F : is_finite (round s (inject_Z k)) = true).
  { apply round_finite, pow2_big_Z; unfold prec in Hk; lia. }
  assert (Z0 : is_zero (round s (inject_Z k)) = false).
  { apply round_nonzero. pose proof one_ge_pow2_emin. lra. }
  pose proof (round_small_int s k Hk) as M.
  destruct (round_finite_nonzero_form _ _ F Z0) as (m & e & E).
  rewrite E in *. clear F Z0.
  unfold wei_from_gwei, float_mul_int. rewrite float_of_int_billion. cbn [bind].
  unfold billion at 1. rewrite mul_finite. fold billion.
  rewrite (round_comp _ _ (inject_Z (k * 1000000000))).
  2: { rewrite M, magnitude_billion, inject_Z_mult. reflexivity. }
  rewrite xorb_false_r.
  assert (Hp : 0 < k * 1000000000 < 2 ^ prec) by (unfold prec; lia).
  assert (F : is_finite (round s (inject_Z (k * 1000000000))) = true).
  { apply round_finite, pow2_big_Z; unfold prec in Hp; lia. }
  rewrite (int_of_float_finite _ F). f_equal.
  apply Qtruncate_eq_Z. unfold value. rewrite round_sign.
  pose proof (round_small_int s _ Hp) as M2.
  destruct s; rewrite M2; symmetry in S.
  - apply Z.ltb_lt in S. rewrite <- inject_Z_opp.
    replace (- (k * 1000000000)) with (n * 1000000000) by (unfold k; lia).
    reflexivity.
  - apply Z.ltb_ge in S.
    replace (k * 1000000000) with (n * 1000000000) by (unfold k; lia).
    reflexivity.
Qed.

(** [mul g 1e9] is NaN only for a NaN [g]. *)
Lemma mul_billion_nan g : mul g billion = S754_nan -> g = S754_nan.
Proof.
  destruct g as [s | s | | s m e]; try discriminate; [reflexivity|].
  unfold billion. rewrite mul_finite. intros H. now apply round_not_nan in H.
Qed.

Lemma wei_from_gwei_nan g :
  wei_from_gwei g = Raise (ValueError "cannot convert float NaN to integer")
  <-> g = S754_nan.
Proof.
  split; [|intros ->; reflexivity].
  unfold wei_from_gwei, float_mul_int. rewrite float_of_int_billion. cbn [bind].
  intros H. apply mul_billion_nan.
  destruct (mul g billion); try discriminate. reflexivity.
Qed.

Lemma wei_from_gwei_finite g :
  is_finite g = true -> (magnitude g < pow2 993)%Q ->
  exists w, wei_from_gwei g = Ok w /\ w = Qtruncate (value (mul g billion)).
Proof.
  intros Fg Hg. unfold wei_from_gwei, float_mul_int.
  rewrite float_of_int_billion. cbn [bind].
  assert (F : is_finite (mul g billion) = true).
  { destruct g as [s | s | | s m e]; try discriminate; [reflexivity|].
    unfold billion. rewrite mul_finite. fold billion.
    apply round_finite. rewrite magnitude_billion.
    apply Qlt_trans with (pow2 993 * 1000000000)%Q.
    - apply Qmult_lt_compat_r; [reflexivity | exact Hg].
    - vm_compute. reflexivity. }
  rewrite (int_of_float_finite _ F). eauto.
Qed.

End NumericFacts.

Import NumericFacts.

(** ** Monotone division, the registry and the listing *)

Module ScriptFacts.

(** *** Division of two [int]s *)

Lemma int_truediv_form a t f :
  0 < t -> int_truediv a t = Ok f ->
  f = round (a <? 0) (Z.abs a # Z.to_pos t) /\ is_finite f = true.
Proof.
  intros Ht H. pose proof (int_truediv_finite _ _ _ H) as F.
  unfold int_truediv in H.
  destruct (Z.eqb_spec t 0); [lia|].
  destruct (Z.ltb_spec t 0); [lia|]. rewrite xorb_false_r in H.
  rewrite (Z.abs_eq t) in H by lia.
  apply finite_or_raise_ok in H as [-> _]. split; [reflexivity | exact F].
Qed.

Lemma value_round s x :
  value (round s x) = if s then (- magnitude (round s x))%Q else magnitude (round s x).
Proof. unfold value. now rewrite round_sign. Qed.

Lemma int_truediv_mono a a' t f f' :
  0 < t -> a <= a' ->
  int_truediv a t = Ok f -> int_truediv a' t = Ok f' ->
  (value f <= value f')%Q.
Proof.
  intros Ht Ha H H'.
  apply int_truediv_form in H as [-> F]; [|exact Ht].
  apply int_truediv_form in H' as [-> F']; [|exact Ht].
  rewrite !value_round.
  set (r := round (a <? 0) (Z.abs a # Z.to_pos t)) in *.
  set (r' := round (a' <? 0) (Z.abs a' # Z.to_pos t)) in *.
  pose proof (magnitude_nonneg r) as N. pose proof (magnitude_nonneg r') as N'.
  assert (Q : forall u v, 0 < u -> u <= v ->
              (0 < (u # Z.to_pos t))%Q /\ ((u # Z.to_pos t) <= (v # Z.to_pos t))%Q).
  { intros u v Hu Huv. unfold Qlt, Qle. cbn [Qnum Qden]. split; [lia|].
    apply Z.mul_le_mono_nonneg_r; lia. }
  destruct (Z.ltb_spec a 0) as [A | A], (Z.ltb_spec a' 0) as [A' | A'].
  - destruct (Q (Z.abs a') (Z.abs a) ltac:(lia) ltac:(lia)) as [Q1 Q2].
    pose proof (round_mono _ _ _ _ Q1 Q2 F' F). fold r r' in H. lra.
  - lra.
  - lia.
  - destruct (Z.eq_dec a 0) as [-> | A0].
    + subst r. rewrite round_zero; [cbn [magnitude]; exact N'|].
      unfold Qle. cbn. lia.
    + destruct (Q (Z.abs a) (Z.abs a') ltac:(lia) ltac:(lia)) as [Q1 Q2].
      exact (round_mono _ _ _ _ Q1 Q2 F F').
Qed.

(** *** The registry *)

Lemma registry_key k p : get k PROFILES = Some p -> key p = k.
Proof.
  unfold PROFILES. cbn [get]. intros H.
  destruct (String.eqb_spec k "aztec") as [-> | _]; [now inversion H|].
  destruct (String.eqb_spec k "zama") as [-> | _]; [now inversion H|].
  destruct (String.eqb_spec k "soundness") as [-> | _]; [now inversion H|].
  discriminate.
Qed.

(** *** Listing the profiles *)

Lemma print_profiles_out ps out :
  print_profiles ps out =
  (Ok tt,
   (out ++ map (fun kp => Line ("- " ++ fst kp ++ ": " ++ name (snd kp))) ps)%list).
Proof.
  revert out. induction ps as [| [k prof] ps IH]; intros out.
  - cbn [print_profiles map]. unfold ret. now rewrite app_nil_r.
  - cbn [print_profiles map fst snd]. unfold seq, print. rewrite IH.
    now rewrite <- app_assoc.
Qed.

Lemma list_profiles_out out :
  list_profiles out =
  (Ok tt,
   (out ++ Line "Available profiles:"
        :: map (fun kp => Line ("- " ++ fst kp ++ ": " ++ name (snd kp))) PROFILES
        ++ [Line EmptyString;
            Line "Use --profile with one of the keys above, or 'custom' to provide your own parameters."])%list).
Proof.
  unfold list_profiles. unfold seq at 1. unfold print at 1.
  unfold seq at 1. rewrite print_profiles_out.
  unfold seq, print. f_equal.
  rewrite <- !app_assoc. reflexivity.
Qed.

(** *** Inverting a run of [main] *)

Lemma main_list parse_args args out0 out :
  parse_args out0 = (Ok args, out) -> arg_list_profiles args = true ->
  main parse_args out0 = list_profiles out.
Proof. intros P L. unfold main. unfold seq at 1. now rewrite P, L. Qed.

Lemma main_unknown_profile parse_args args out0 out :
  parse_args out0 = (Ok args, out) ->
  arg_list_profiles args = false ->
  String.eqb (arg_profile args) "custom" = false ->
  get (arg_profile args) PROFILES = None ->
  main parse_args out0 = (Raise (KeyError (arg_profile args)), out).
Proof.
  intros P L C N. unfold main. unfold seq at 1. rewrite P, L, C, N. reflexivity.
Qed.

(** [main] goes on to [compute_cost] only with a registry profile or a
    complete custom one. *)
Lemma main_cases parse_args args out0 out :
  parse_args out0 = (Ok args, out) ->
  arg_list_profiles args = false ->
  (exists p,
     (get (arg_profile args) PROFILES = Some p \/
      (arg_profile args = "custom" /\ build_custom_profile args out = (Ok p, out))) /\
     key p = arg_profile args) \/
  (arg_profile args = "custom" /\ missing_options args <> [] /\
   main parse_args out0 =
     (Raise (SystemExit 1),
      (out ++ [Line (cross_mark ++ " Missing required options for custom profile: "
                     ++ String.concat ", " (missing_options args))])%list)) \/
  (arg_profile args <> "custom" /\ get (arg_profile args) PROFILES = None /\
   main parse_args out0 = (Raise (KeyError (arg_profile args)), out)).
Proof.
  intros P L. destruct (String.eqb_spec (arg_profile args) "custom") as [C | C].
  - destruct (missing_options args) as [| o os] eqn:M.
    + left. apply missing_options_nil in M as (pg & cg & og & Hp & G & O).
      exists (custom_profile pg cg og). split; [|now rewrite C].
      right. split; [exact C|]. now apply build_custom_profile_given.
    + right. left. split; [exact C|]. split; [discriminate|].
      rewrite <- M. apply main_custom_missing; try assumption.
      rewrite M. discriminate.
  - destruct (get (arg_profile args) PROFILES) as [p|] eqn:G.
    + left. exists p. split; [now left|]. now apply registry_key.
    + right. right. split; [exact C|]. split; [reflexivity|].
      apply main_unknown_profile; try assumption.
      now apply String.eqb_neq.
Qed.

End ScriptFacts.

Import ScriptFacts.

(** ** Division of a float by a count *)

Module FeeFacts.

Lemma scaled_round_error s x t :
  (0 < x)%Q -> (0 < t)%Q -> is_finite (round s x) = true ->
  (Qabs (magnitude (round s x) * t - x * t)
   <= x * t * pow2 (-53) + t * pow2 (-1075))%Q.
Proof.
  intros Hx Ht F. pose proof (round_error s x Hx F) as E.
  apply Qabs_Qle_condition in E. destruct E as [E1 E2].
  set (m := magnitude (round s x)) in *.
  assert (P1 : ((m - x) * t <= (x * pow2 (-53) + pow2 (-1075)) * t)%Q)
    by (apply Qmult_le_compat_r; lra).
  assert (P2 : (- (x * pow2 (-53) + pow2 (-1075)) * t <= (m - x) * t)%Q)
    by (apply Qmult_le_compat_r; lra).
  apply Qabs_Qle_condition. split.
  - setoid_replace (- (x * t * pow2 (-53) + t * pow2 (-1075)))%Q
      with (- (x * pow2 (-53) + pow2 (-1075)) * t)%Q by ring.
    setoid_replace (m * t - x * t)%Q with ((m - x) * t)%Q by ring. exact P2.
  - setoid_replace (x * t * pow2 (-53) + t * pow2 (-1075))%Q
      with ((x * pow2 (-53) + pow2 (-1075)) * t)%Q by ring.
    setoid_replace (m * t - x * t)%Q with ((m - x) * t)%Q by ring. exact P1.
Qed.

(** [float(t)] for a positive [t] below [2^53] is [t] itself. *)
Lemma float_of_int_small t y :
  0 < t < 2 ^ 53 -> float_of_int t = Ok y ->
  exists m e, y = S754_finite false m e /\ (magnitude y == inject_Z t)%Q.
Proof.
  intros Ht H. pose proof (float_of_int_finite _ _ H) as F.
  pose proof (float_of_int_nonzero _ _ (proj1 Ht) H) as Z0.
  unfold float_of_int in H. apply finite_or_raise_ok in H as [-> _].
  destruct (Z.ltb_spec t 0); [lia|]. rewrite Z.abs_eq in * by lia.
  destruct (round_finite_nonzero_form _ _ F Z0) as (m & e & E).
  exists m, e. split; [exact E|]. apply round_small_int. unfold prec. lia.
Qed.

(** The error of [x / t] on a float and a small [int], scaled back. *)
Lemma float_truediv_int_error x t f :
  0 < t < 2 ^ 53 -> is_finite x = true -> (magnitude x < pow2 1023)%Q ->
  float_truediv_int x t = Ok f ->
  is_finite f = true /\
  (Qabs (value f * inject_Z t - value x)
   <= Qabs (value x) * pow2 (-53) + inject_Z t * pow2 (-1075))%Q.
Proof.
  intros Ht Fx Bx H. unfold float_truediv_int in H.
  apply bind_ok in H as (y & Hy & H).
  destruct (float_of_int_small t y Ht Hy) as (m & e & -> & My).
  cbn [is_zero] in H. inversion H; subst f; clear H.
  assert (T : (0 < inject_Z t)%Q) by (rewrite <- (Zlt_Qlt 0); lia).
  pose proof (pow2_pos (-53)) as U. pose proof (pow2_pos (-1075)) as N.
  assert (TN : (0 <= inject_Z t * pow2 (-1075))%Q)
    by (apply Qmult_le_0_compat; lra).
  destruct x as [s | s | | s mx ex]; try discriminate.
  - split; [reflexivity|].
    assert (V : (value (div (S754_zero s) (S754_finite false m e)) == 0)%Q)
      by (destruct s; reflexivity).
    assert (V' : (value (S754_zero s) == 0)%Q) by (destruct s; reflexivity).
    rewrite V, V'.
    setoid_replace (0 * inject_Z t - 0)%Q with 0%Q by ring.
    cbn [Qabs Z.abs]. lra.
  - rewrite div_finite. rewrite xorb_false_r.
    set (a := magnitude (S754_finite s mx ex)) in *.
    assert (A : (0 < a)%Q).
    { unfold a. cbn [magnitude]. apply Qmult_lt_0_compat; [reflexivity | apply pow2_pos]. }
    rewrite (round_comp _ _ (a / inject_Z t)%Q) by now rewrite My.
    set (q := (a / inject_Z t)%Q).
    assert (QT : (q * inject_Z t == a)%Q) by (unfold q; field; lra).
    assert (Hq : (0 < q)%Q).
    { unfold q. apply Qlt_shift_div_l; [exact T | lra]. }
    assert (Q1 : (q <= a)%Q).
    { unfold q. apply Qle_shift_div_r; [exact T|].
      assert (1 <= inject_Z t)%Q by (rewrite <- (Zle_Qle 1); lia).
      setoid_replace a with (a * 1)%Q at 1 by ring.
      apply Qmult_le_l; assumption. }
    assert (F : is_finite (round s q) = true) by (apply round_finite; lra).
    split; [exact F|].
    pose proof (scaled_round_error s q (inject_Z t) Hq T F) as E.
    rewrite QT in E.
    rewrite value_round. unfold value. cbn [sign]. fold a.
    set (r := magnitude (round s q)) in *.
    apply Qabs_Qle_condition in E. destruct E as [E1 E2].
    destruct s.
    + setoid_replace (Qabs (- a))%Q with a
        by (rewrite Qabs_opp; apply Qabs_pos; lra).
      apply Qabs_Qle_condition. split; lra.
    + rewrite (Qabs_pos a) by lra.
      apply Qabs_Qle_condition. split; lra.
Qed.

End FeeFacts.

Import FeeFacts.

(** ** Reading the summary dict *)

Module SummaryFacts.

Section Summary.
Variables (p : RollupProfile) (t b : Z) (g : float) (l : Locals).
Let s := summary_dict p t b g l.

Lemma get_profile : get "profile" s = Some (VStr (key p)).
Proof. reflexivity. Qed.

Lemma get_profileName : get "profileName" s = Some (VStr (name p)).
Proof. reflexivity. Qed.

Lemma get_description : get "description" s = Some (VStr (description p)).
Proof. reflexivity. Qed.

Lemma get_txCount : get "txCount" s = Some (VInt t).
Proof. reflexivity. Qed.

Lemma get_batchSize : get "batchSize" s = Some (VInt b).
Proof. reflexivity. Qed.

Lemma get_batches : get "batches" s = Some (VInt (batches l)).
Proof. reflexivity. Qed.

Lemma get_gasPriceGwei : get "gasPriceGwei" s = Some (VFloat g).
Proof. reflexivity. Qed.

Lemma get_proofGasPerBatch : get "proofGasPerBatch" s = Some (VInt (proof_gas p)).
Proof. reflexivity. Qed.

Lemma get_calldataGasPerTx :
  get "calldataGasPerTx" s = Some (VInt (calldata_gas_per_tx p)).
Proof. reflexivity. Qed.

Lemma get_overheadGasPerBatch :
  get "overheadGasPerBatch" s = Some (VInt (overhead_gas_per_batch p)).
Proof. reflexivity. Qed.

Lemma get_totalProofGas : get "totalProofGas" s = Some (VInt (total_proof_gas l)).
Proof. reflexivity. Qed.

Lemma get_totalOverheadGas :
  get "totalOverheadGas" s = Some (VInt (total_overhead_gas l)).
Proof. reflexivity. Qed.

Lemma get_totalCalldataGas :
  get "totalCalldataGas" s = Some (VInt (total_calldata_gas l)).
Proof. reflexivity. Qed.

Lemma get_totalGas : get "totalGas" s = Some (VInt (total_gas l)).
Proof. reflexivity. Qed.

Lemma get_perTxGas : get "perTxGas" s = Some (VFloat (per_tx_gas l)).
Proof. reflexivity. Qed.

Lemma get_totalFeeEth : get "totalFeeEth" s = Some (VFloat (total_fee_eth l)).
Proof. reflexivity. Qed.

Lemma get_perTxFeeEth : get "perTxFeeEth" s = Some (VFloat (per_tx_fee_eth l)).
Proof. reflexivity. Qed.

End Summary.

Lemma total_gas_eq p t b g l :
  compute_cost_locals p t b g = Ok l ->
  total_gas l = batches l * proof_gas p + batches l * overhead_gas_per_batch p
                + t * calldata_gas_per_tx p.
Proof.
  intros H. apply compute_cost_locals_inv in H
    as (_ & _ & _ & Hp & Ho & Hc & Hg & _).
  now rewrite Hg, Hp, Ho, Hc.
Qed.

(** The default run, evaluated. *)
Lemma aztec_default_run :
  compute_cost_locals aztec 256 256 gwei20 = Ok aztec_locals /\
  compute_cost aztec 256 256 gwei20 = Ok aztec_summary.
Proof. split; vm_compute; reflexivity. Qed.

(** [x / t] returns only for a [t] that converts to a finite float. *)
Lemma float_truediv_int_bound x n y :
  float_truediv_int x n = Ok y -> (inject_Z (Z.abs n) < pow2 emax)%Q.
Proof.
  unfold float_truediv_int, float_of_int. intros H.
  apply bind_ok in H as (f & Hf & _).
  apply finite_or_raise_ok in Hf as [_ Hf].
  apply not_infinity_finite in Hf. now apply round_finite_inv in Hf.
Qed.

End SummaryFacts.

Import SummaryFacts.

(** ** The claims of the specification *)

Module Claims.

(** C1: [compute_cost] takes [batches] from [math.ceil(tx_count / batch_size)],
    a ceiling of the binary64 quotient.  For [tx_count = 1000] and
    [batch_size = 256] it returns 4 batches, the exact ceiling; for
    [tx_count = 2^53 + 1] and [batch_size = 1] it returns [2^53] batches,
    while the exact ceiling of the quotient is [2^53 + 1]. *)
Theorem batches_inexact_above_2_53 :
  (exists s, compute_cost aztec 1000 256 gwei20 = Ok s /\
             get "batches" s = Some (VInt 4)) /\
  (exists s, compute_cost aztec (2 ^ 53 + 1) 1 gwei20 = Ok s /\
             get "batches" s = Some (VInt (2 ^ 53)) /\
             Qceiling (inject_Z (2 ^ 53 + 1) / inject_Z 1) = 2 ^ 53 + 1).
Proof.
  split; eexists; (split; [vm_compute; reflexivity|]).
  - vm_compute; reflexivity.
  - split; vm_compute; reflexivity.
Qed.

(** C2: whenever [compute_cost] returns a summary for [tx_count = t > 0] and
    [batch_size = b > 0], its [totalGas] is
    [batches * proof_gas + batches * overhead_gas_per_batch
     + t * calldata_gas_per_tx], with [batches] the value of the summary's
    own [batches] field. *)
Theorem total_gas_formula p t b g s :
  0 < t -> 0 < b -> compute_cost p t b g = Ok s ->
  exists n,
    get "batches" s = Some (VInt n) /\
    get "totalGas" s =
      Some (VInt (n * proof_gas p + n * overhead_gas_per_batch p
                  + t * calldata_gas_per_tx p)).
Proof.
  intros _ _ H. apply compute_cost_inv in H as (l & Hl & ->).
  exists (batches l). split; [apply get_batches|].
  rewrite get_totalGas. now rewrite (total_gas_eq _ _ _ _ _ Hl).
Qed.

Lemma total_gas_formula_witness :
  compute_cost aztec 256 256 gwei20 = Ok aztec_summary /\
  exists n,
    get "batches" aztec_summary = Some (VInt n) /\
    get "totalGas" aztec_summary =
      Some (VInt (n * proof_gas aztec + n * overhead_gas_per_batch aztec
                  + 256 * calldata_gas_per_tx aztec)).
Proof.
  split; [apply aztec_default_run|].
  apply (total_gas_formula aztec 256 256 gwei20 aztec_summary);
    [reflexivity | reflexivity | apply aztec_default_run].
Defined.

(** C3: with the built-in aztec profile, 256 transactions, batches of 256
    and a gas price of 20 gwei, [compute_cost] returns [batches = 1],
    [totalProofGas = 900000], [totalOverheadGas = 60000],
    [totalCalldataGas = 81920] and [totalGas = 1041920]. *)
Theorem aztec_256_example :
  exists s,
    compute_cost aztec 256 256 gwei20 = Ok s /\
    get "batches" s = Some (VInt 1) /\
    get "totalProofGas" s = Some (VInt 900000) /\
    get "totalOverheadGas" s = Some (VInt 60000) /\
    get "totalCalldataGas" s = Some (VInt 81920) /\
    get "totalGas" s = Some (VInt 1041920).
Proof.
  exists aztec_summary. split; [apply aztec_default_run|].
  repeat split; reflexivity.
Qed.

(** C4, as the code behaves: with a positive [tx_count] and [batch_size]
    [compute_cost] still raises for some inputs.  A NaN gas price gives the
    [ValueError] of [int(nan)], which [main] reports like a validation
    error, with exit status 1; an infinite or huge gas price, or a
    [tx_count] of [2^1024], gives an [OverflowError]. *)
Lemma compute_cost_raises_on_positive_counts :
  compute_cost aztec 1 1 S754_nan =
    Raise (ValueError "cannot convert float NaN to integer") /\
  run (ret {| arg_tx_count := 1; arg_profile := "aztec"; arg_batch_size := 1;
              arg_gas_price_gwei := S754_nan; arg_proof_gas := None;
              arg_calldata_gas_per_tx := None;
              arg_overhead_gas_per_batch := None;
              arg_json := false; arg_list_profiles := false |}) =
    ([Line (cross_mark ++ " cannot convert float NaN to integer")], 1) /\
  compute_cost aztec 1 1 (S754_infinity false) =
    Raise (OverflowError "cannot convert float infinity to integer") /\
  compute_cost aztec 1 1 gwei1e300 =
    Raise (OverflowError "cannot convert float infinity to integer") /\
  compute_cost aztec (2 ^ 1024) 1 gwei20 =
    Raise (OverflowError "integer division result too large for a float").
Proof.
  split; [vm_compute; reflexivity|]. split; [vm_compute; reflexivity|].
  split; [vm_compute; reflexivity|]. split; vm_compute; reflexivity.
Qed.

(** C4, amended: [compute_cost] raises [ValueError("tx_count must be
    positive.")] exactly when [tx_count <= 0], and
    [ValueError("batch_size must be positive.")] exactly when
    [tx_count > 0] and [batch_size <= 0].  For any [ValueError] of
    [compute_cost], [main] prints the message after the cross mark and exits
    with status 1, printing no report.  With both counts positive the only
    exceptions left are the [ValueError] of a NaN gas price and
    [OverflowError], which [main] does not catch; and [compute_cost] returns
    a summary whenever moreover [tx_count] and the profile's gas fields are
    below [2^256] in absolute value and the gas price is finite and below
    [2^256]. *)
Theorem compute_cost_validation p t b g :
  (t <= 0 <->
   compute_cost p t b g = Raise (ValueError "tx_count must be positive.")) /\
  (0 < t /\ b <= 0 <->
   compute_cost p t b g = Raise (ValueError "batch_size must be positive.")) /\
  (forall parse_args args out0 out,
     parse_args out0 = (Ok args, out) ->
     arg_list_profiles args = false ->
     get (arg_profile args) PROFILES = Some p \/
     (arg_profile args = "custom" /\ build_custom_profile args out = (Ok p, out)) ->
     arg_tx_count args = t -> arg_batch_size args = b ->
     arg_gas_price_gwei args = g ->
     (forall msg,
        compute_cost p t b g = Raise (ValueError msg) ->
        main parse_args out0 =
          (Raise (SystemExit 1), (out ++ [Line (cross_mark ++ " " ++ msg)])%list)) /\
     (forall msg,
        compute_cost p t b g = Raise (OverflowError msg) ->
        main parse_args out0 = (Raise (OverflowError msg), out))) /\
  (0 < t -> 0 < b -> forall e, compute_cost p t b g = Raise e ->
     e = ValueError "cannot convert float NaN to integer" \/
     exists msg, e = OverflowError msg) /\
  (0 < t < 2 ^ 256 -> 0 < b ->
   Z.abs (proof_gas p) < 2 ^ 256 ->
   Z.abs (calldata_gas_per_tx p) < 2 ^ 256 ->
   Z.abs (overhead_gas_per_batch p) < 2 ^ 256 ->
   is_finite g = true -> (magnitude g < pow2 256)%Q ->
   exists s, compute_cost p t b g = Ok s).
Proof.
  split; [|split; [|split; [|split]]].
  - split.
    + intros Ht. apply compute_cost_raise. now apply compute_cost_locals_nonpositive_tx.
    + intros H. apply compute_cost_raise in H.
      destruct (Z.le_gt_cases t 0) as [|Ht]; [assumption|].
      destruct (Z.le_gt_cases b 0) as [Hb|Hb].
      * rewrite compute_cost_locals_nonpositive_batch in H by assumption. discriminate.
      * apply compute_cost_locals_raise in H as [H | [m H]]; try assumption; discriminate.
  - split.
    + intros [Ht Hb]. apply compute_cost_raise.
      now apply compute_cost_locals_nonpositive_batch.
    + intros H. apply compute_cost_raise in H.
      destruct (Z.le_gt_cases t 0) as [Ht|Ht].
      * rewrite compute_cost_locals_nonpositive_tx in H by assumption. discriminate.
      * split; [assumption|].
        destruct (Z.le_gt_cases b 0) as [Hb|Hb]; [assumption|].
        apply compute_cost_locals_raise in H as [H | [m H]]; try assumption; discriminate.
  - intros parse_args args out0 out P L S <- <- <-.
    split; intros msg H;
      rewrite (main_selected parse_args args p out0 out P L S), H; reflexivity.
  - intros Ht Hb e H. apply compute_cost_raise in H.
    now apply (compute_cost_locals_raise p t b g).
  - intros Ht Hb Hp Hc Ho Fg Hg.
    destruct (compute_cost_locals_total p t b g Ht Hb Hp Hc Ho Fg Hg) as [l Hl].
    eexists. apply compute_cost_ok. exact Hl.
Qed.

Lemma compute_cost_validation_witness :
  compute_cost aztec 0 256 gwei20 =
    Raise (ValueError "tx_count must be positive.") /\
  compute_cost aztec 256 0 gwei20 =
    Raise (ValueError "batch_size must be positive.") /\
  main (ret zero_tx_args) [] =
    (Raise (SystemExit 1), [Line (cross_mark ++ " tx_count must be positive.")]) /\
  exists s, compute_cost aztec 256 256 gwei20 = Ok s.
Proof.
  destruct (compute_cost_validation aztec 0 256 gwei20) as ([T _] & _ & M & _).
  destruct (compute_cost_validation aztec 256 0 gwei20) as (_ & [B _] & _).
  destruct (compute_cost_validation aztec 256 256 gwei20) as (_ & _ & _ & _ & R).
  split; [apply T; lia|]. split; [apply B; lia|]. split.
  - refine (proj1 (M (ret zero_tx_args) zero_tx_args [] [] eq_refl eq_refl
                     (or_introl eq_refl) eq_refl eq_refl eq_refl) _ _).
    apply T. lia.
  - apply R; [lia | lia | reflexivity | reflexivity | reflexivity | reflexivity
             | reflexivity].
Defined.



(** C6, as the code behaves: for the gas price [0.3] the code returns
    300000000 wei, while the truncation of the exact product of that float
    with [10^9] is 299999999; for the non-negative gas price [1e300] the
    code raises [OverflowError] instead of setting [gas_price_wei]. *)
Lemma gas_price_wei_not_exact_truncation :
  (exists l, compute_cost_locals aztec 1 1 gwei03 = Ok l /\
             gas_price_wei l = 300000000) /\
  Qtruncate (value gwei03 * 1000000000) = 299999999 /\
  compute_cost_locals aztec 1 1 gwei1e300 =
    Raise (OverflowError "cannot convert float infinity to integer").
Proof.
  split; [eexists; split; vm_compute; reflexivity|].
  split; vm_compute; reflexivity.
Qed.

(** C6, amended: whenever [compute_cost] reaches its [return], the binary64
    product [gas_price_gwei * 1e9] is finite, [gas_price_wei] is that
    rounded product truncated toward zero, the rounded product is within
    half a unit in the last place of the exact one, and [total_fee_wei] is
    the exact integer product [total_gas * gas_price_wei]. *)
Theorem gas_price_wei_rounded_product p t b g l :
  compute_cost_locals p t b g = Ok l ->
  is_finite (mul g billion) = true /\
  gas_price_wei l = Qtruncate (value (mul g billion)) /\
  (Qabs (value (mul g billion) - value g * 1000000000)
   <= Qabs (value g * 1000000000) * pow2 (-53) + pow2 (-1075))%Q /\
  total_fee_wei l = total_gas l * gas_price_wei l.
Proof.
  intros H. apply compute_cost_locals_inv in H
    as (_ & _ & _ & _ & _ & _ & _ & Hw & Hf & _).
  apply wei_from_gwei_spec in Hw as (_ & F & W & E).
  repeat split; assumption.
Qed.

Lemma gas_price_wei_rounded_product_witness :
  exists l,
    compute_cost_locals aztec 1 1 gwei03 = Ok l /\
    is_finite (mul gwei03 billion) = true /\
    gas_price_wei l = Qtruncate (value (mul gwei03 billion)) /\
    (Qabs (value (mul gwei03 billion) - value gwei03 * 1000000000)
     <= Qabs (value gwei03 * 1000000000) * pow2 (-53) + pow2 (-1075))%Q /\
    total_fee_wei l = total_gas l * gas_price_wei l.
Proof.
  eexists. split; [vm_compute; reflexivity|].
  apply (gas_price_wei_rounded_product aztec 1 1 gwei03).
  vm_compute; reflexivity.
Defined.

(** C7: whenever [compute_cost] returns a summary, its [perTxGas] times
    [tx_count] differs from its [totalGas] by at most
    [|totalGas| * 2^-53 + 2^-51] (the rounding of one binary64 division),
    and the exact rational quotient [totalGas / tx_count] times [tx_count]
    is [totalGas]. *)
Theorem per_tx_gas_tolerance p t b g s :
  compute_cost p t b g = Ok s ->
  exists f G,
    get "perTxGas" s = Some (VFloat f) /\
    get "totalGas" s = Some (VInt G) /\
    (Qabs (value f * inject_Z t - inject_Z G)
     <= Qabs (inject_Z G) * pow2 (-53) + pow2 (-51))%Q /\
    (inject_Z G / inject_Z t * inject_Z t == inject_Z G)%Q.
Proof.
  intros H. apply compute_cost_inv in H as (l & Hl & ->).
  exists (per_tx_gas l), (total_gas l).
  split; [apply get_perTxGas|]. split; [apply get_totalGas|].
  apply compute_cost_locals_inv in Hl
    as (Ht & _ & _ & _ & _ & _ & _ & _ & _ & _ & Hd & Hf).
  assert (T : (0 < inject_Z t)%Q) by (rewrite <- (Zlt_Qlt 0); lia).
  split.
  - pose proof (int_truediv_error _ _ _ Ht Hd) as E.
    apply float_truediv_int_bound in Hf. rewrite Z.abs_eq in Hf by lia.
    pose proof (pow2_pos (-1075)) as N.
    assert (B : (inject_Z t * pow2 (-1075) <= pow2 emax * pow2 (-1075))%Q)
      by (apply Qmult_le_compat_r; lra).
    assert (C : (pow2 emax * pow2 (-1075) == pow2 (-51))%Q)
      by (rewrite <- pow2_add; reflexivity).
    rewrite C in B. lra.
  - field. lra.
Qed.

Lemma per_tx_gas_tolerance_witness :
  exists f G,
    get "perTxGas" aztec_summary = Some (VFloat f) /\
    get "totalGas" aztec_summary = Some (VInt G) /\
    (Qabs (value f * inject_Z 256 - inject_Z G)
     <= Qabs (inject_Z G) * pow2 (-53) + pow2 (-51))%Q /\
    (inject_Z G / inject_Z 256 * inject_Z 256 == inject_Z G)%Q.
Proof.
  apply (per_tx_gas_tolerance aztec 256 256 gwei20 aztec_summary).
  apply aztec_default_run.
Defined.

(** C8, as the code behaves: given [--proof-gas -1 --calldata-gas-per-tx -1],
    [build_custom_profile] builds a profile with those negative fields, and
    the run computes with it and ends with status 0. *)
Lemma custom_profile_negative_gas :
  build_custom_profile negative_args [] = (Ok (custom_profile (-1) (-1) 0), []) /\
  proof_gas (custom_profile (-1) (-1) 0) = -1 /\
  calldata_gas_per_tx (custom_profile (-1) (-1) 0) = -1 /\
  exists s,
    run (ret negative_args) = ([HumanReport s], 0) /\
    get "proofGasPerBatch" s = Some (VInt (-1)) /\
    get "calldataGasPerTx" s = Some (VInt (-1)) /\
    get "totalGas" s = Some (VInt (-4)).
Proof.
  split; [reflexivity|]. split; [reflexivity|]. split; [reflexivity|].
  eexists. split; [vm_compute; reflexivity|].
  split; [vm_compute; reflexivity|]. split; vm_compute; reflexivity.
Qed.

(** C8, amended: the three registry profiles have non-negative [proof_gas],
    [calldata_gas_per_tx] and [overhead_gas_per_batch]; a custom profile
    carries the three option values as given, whatever their sign. *)
Theorem profile_gas_fields :
  (forall k p, get k PROFILES = Some p ->
     0 <= proof_gas p /\ 0 <= calldata_gas_per_tx p /\
     0 <= overhead_gas_per_batch p) /\
  (forall args out p out',
     build_custom_profile args out = (Ok p, out') ->
     arg_proof_gas args = Some (proof_gas p) /\
     arg_calldata_gas_per_tx args = Some (calldata_gas_per_tx p) /\
     arg_overhead_gas_per_batch args = Some (overhead_gas_per_batch p)).
Proof.
  split.
  - intros k p H. unfold PROFILES in H. cbn [get] in H.
    destruct (String.eqb k "aztec"); [inversion H; cbn; lia|].
    destruct (String.eqb k "zama"); [inversion H; cbn; lia|].
    destruct (String.eqb k "soundness"); [inversion H; cbn; lia|].
    discriminate.
  - intros args out p out' H.
    apply build_custom_profile_ok in H as (_ & pg & cg & og & P & C & O & ->).
    cbn [custom_profile proof_gas calldata_gas_per_tx overhead_gas_per_batch].
    now rewrite P, C, O.
Qed.

Lemma profile_gas_fields_witness :
  (0 <= proof_gas zama /\ 0 <= calldata_gas_per_tx zama /\
   0 <= overhead_gas_per_batch zama) /\
  arg_proof_gas custom_args = Some 800000 /\
  arg_calldata_gas_per_tx custom_args = Some 300 /\
  arg_overhead_gas_per_batch custom_args = Some 50000.
Proof.
  destruct profile_gas_fields as [R C].
  split; [apply (R "zama"); reflexivity|].
  apply (C custom_args [] (custom_profile 800000 300 50000) []). reflexivity.
Defined.

(** C9: [compute_cost] has no side effect and echoes its inputs.  Run in
    any world, with [profile] a reference to a profile object, it returns
    or raises what it computes from the attributes the object has at the
    call, and the world after the call is the world before it: nothing is
    printed and no object, the profile among them, is modified.  The
    summary returned echoes the inputs: [txCount], [batchSize] and
    [gasPriceGwei] are the arguments, and [profile], [profileName],
    [description], [proofGasPerBatch], [calldataGasPerTx] and
    [overheadGasPerBatch] are the attributes of the profile. *)
Theorem compute_cost_echoes_inputs w profile t b g :
  Objects.compute_cost profile t b g w =
    (compute_cost (Objects.objects w profile) t b g, w) /\
  (forall r w',
     Objects.compute_cost profile t b g w = (r, w') ->
     Objects.stdout w' = Objects.stdout w /\
     (forall o, Objects.objects w' o = Objects.objects w o)) /\
  (forall s w',
     Objects.compute_cost profile t b g w = (Ok s, w') ->
     let p := Objects.objects w' profile in
     get "txCount" s = Some (VInt t) /\
     get "batchSize" s = Some (VInt b) /\
     get "gasPriceGwei" s = Some (VFloat g) /\
     get "profile" s = Some (VStr (key p)) /\
     get "profileName" s = Some (VStr (name p)) /\
     get "description" s = Some (VStr (description p)) /\
     get "proofGasPerBatch" s = Some (VInt (proof_gas p)) /\
     get "calldataGasPerTx" s = Some (VInt (calldata_gas_per_tx p)) /\
     get "overheadGasPerBatch" s = Some (VInt (overhead_gas_per_batch p))).
Proof.
  assert (E : Objects.compute_cost profile t b g w =
              (compute_cost (Objects.objects w profile) t b g, w)).
  { unfold Objects.compute_cost, compute_cost, compute_cost_locals, summary_dict.
    unfold Objects.then_, Objects.call, Objects.getattr, Objects.unit_,
      Objects.throw.
    destruct (t <=? 0); [reflexivity|]. destruct (b <=? 0); [reflexivity|].
    destruct (int_truediv t b) as [q | e]; cbn [bind]; [|reflexivity].
    destruct (math_ceil q) as [n | e]; cbn [bind]; [|reflexivity].
    destruct (wei_from_gwei g) as [wei | e]; cbn [bind]; [|reflexivity].
    destruct (eth_from_wei _) as [fe | e]; cbn [bind]; [|reflexivity].
    destruct (int_truediv _ t) as [ptg | e]; cbn [bind]; [|reflexivity].
    destruct (float_truediv_int fe t) as [ptf | e]; cbn [bind]; reflexivity. }
  split; [exact E|]. split.
  - intros r w' H. rewrite E in H. inversion H. now split.
  - intros s w' H. rewrite E in H. inversion H as [[C W]]. subst w'. cbv zeta.
    apply compute_cost_inv in C as (l & _ & ->).
    repeat split; reflexivity.
Qed.

Lemma compute_cost_echoes_inputs_witness :
  Objects.compute_cost 0%nat 256 256 gwei20 aztec_world
    = (Ok aztec_summary, aztec_world) /\
  get "txCount" aztec_summary = Some (VInt 256) /\
  get "batchSize" aztec_summary = Some (VInt 256) /\
  get "gasPriceGwei" aztec_summary = Some (VFloat gwei20) /\
  get "profile" aztec_summary = Some (VStr (key aztec)) /\
  get "profileName" aztec_summary = Some (VStr (name aztec)) /\
  get "description" aztec_summary = Some (VStr (description aztec)) /\
  get "proofGasPerBatch" aztec_summary = Some (VInt (proof_gas aztec)) /\
  get "calldataGasPerTx" aztec_summary = Some (VInt (calldata_gas_per_tx aztec)) /\
  get "overheadGasPerBatch" aztec_summary = Some (VInt (overhead_gas_per_batch aztec)).
Proof.
  destruct (compute_cost_echoes_inputs aztec_world 0%nat 256 256 gwei20)
    as (E & _ & G).
  assert (R : Objects.compute_cost 0%nat 256 256 gwei20 aztec_world
              = (Ok aztec_summary, aztec_world)).
  { rewrite E. vm_compute. reflexivity. }
  split; [exact R|]. exact (G aztec_summary aztec_world R).
Defined.

(** C10, as the code behaves: with the custom profile built from
    [--proof-gas -1 --calldata-gas-per-tx -1 --overhead-gas-per-batch 0] and
    [batch_size = 1], one transaction costs -2 gas in total and two cost
    -4. *)
Lemma total_gas_decreases_with_negative_calldata :
  build_custom_profile negative_args [] = (Ok (custom_profile (-1) (-1) 0), []) /\
  exists s1 s2,
    compute_cost (custom_profile (-1) (-1) 0) 1 1 gwei20 = Ok s1 /\
    compute_cost (custom_profile (-1) (-1) 0) 2 1 gwei20 = Ok s2 /\
    get "totalGas" s1 = Some (VInt (-2)) /\
    get "totalGas" s2 = Some (VInt (-4)).
Proof.
  split; [reflexivity|].
  do 2 eexists.
  split; [vm_compute; reflexivity|]. split; [vm_compute; reflexivity|].
  split; vm_compute; reflexivity.
Qed.

(** C10, amended: for a profile whose three gas fields are non-negative, a
    fixed [batch_size > 0] and a fixed gas price, [totalGas] is monotone in
    [tx_count]: if [compute_cost] returns for [0 < t1 <= t2], the first
    [totalGas] is at most the second. *)
Theorem total_gas_monotone p t1 t2 b g s1 s2 :
  0 <= proof_gas p -> 0 <= calldata_gas_per_tx p -> 0 <= overhead_gas_per_batch p ->
  0 < t1 <= t2 -> 0 < b ->
  compute_cost p t1 b g = Ok s1 -> compute_cost p t2 b g = Ok s2 ->
  exists g1 g2,
    get "totalGas" s1 = Some (VInt g1) /\
    get "totalGas" s2 = Some (VInt g2) /\
    g1 <= g2.
Proof.
  intros Hp Hc Ho Ht Hb H1 H2.
  apply compute_cost_inv in H1 as (l1 & Hl1 & ->).
  apply compute_cost_inv in H2 as (l2 & Hl2 & ->).
  exists (total_gas l1), (total_gas l2).
  split; [apply get_totalGas|]. split; [apply get_totalGas|].
  pose proof (batches_mono p t1 t2 b g l1 l2 ltac:(lia) Hl1 Hl2) as Hn.
  rewrite (total_gas_eq _ _ _ _ _ Hl1), (total_gas_eq _ _ _ _ _ Hl2).
  assert (batches l1 * proof_gas p <= batches l2 * proof_gas p)
    by (apply Z.mul_le_mono_nonneg_r; lia).
  assert (batches l1 * overhead_gas_per_batch p <= batches l2 * overhead_gas_per_batch p)
    by (apply Z.mul_le_mono_nonneg_r; lia).
  assert (t1 * calldata_gas_per_tx p <= t2 * calldata_gas_per_tx p)
    by (apply Z.mul_le_mono_nonneg_r; lia).
  lia.
Qed.

Lemma total_gas_monotone_witness :
  exists s1 s2,
    compute_cost aztec 256 256 gwei20 = Ok s1 /\
    compute_cost aztec 257 256 gwei20 = Ok s2 /\
    exists g1 g2,
      get "totalGas" s1 = Some (VInt g1) /\
      get "totalGas" s2 = Some (VInt g2) /\
      g1 <= g2.
Proof.
  do 2 eexists. split; [vm_compute; reflexivity|]. split; [vm_compute; reflexivity|].
  eapply (total_gas_monotone aztec 256 257 256 gwei20);
    [ vm_compute; discriminate | vm_compute; discriminate | vm_compute; discriminate
    | lia | lia | vm_compute; reflexivity | vm_compute; reflexivity ].
Defined.

End Claims.

(** ** Further properties of the script *)

Module Extras.

(** X1: for [tx_count] and [batch_size] positive and below [2^53],
    [compute_cost] returns the exact ceiling of their quotient: the
    [batches] it reports is the integer [n] with
    [(n - 1) * batch_size < tx_count <= n * batch_size]. *)
Theorem batches_is_ceiling p t b g s :
  0 < t < 2 ^ 53 -> 0 < b < 2 ^ 53 ->
  compute_cost p t b g = Ok s ->
  exists n, get "batches" s = Some (VInt n) /\ (n - 1) * b < t <= n * b.
Proof.
  intros Ht Hb H. apply compute_cost_inv in H as (l & Hl & ->).
  exists (batches l). split; [apply get_batches|].
  rewrite (batches_exact _ _ _ _ _ Ht Hb Hl).
  set (x := (inject_Z t / inject_Z b)%Q).
  assert (T : (0 < inject_Z t)%Q) by (rewrite <- (Zlt_Qlt 0); lia).
  assert (B : (0 < inject_Z b)%Q) by (rewrite <- (Zlt_Qlt 0); lia).
  assert (X : (x * inject_Z b == inject_Z t)%Q) by (unfold x; field; lra).
  pose proof (Qle_ceiling x) as K1. pose proof (Qceiling_lt x) as K2.
  set (n := Qceiling x) in *. split.
  - assert (G : (inject_Z ((n - 1) * b) < inject_Z t)%Q).
    { rewrite inject_Z_mult, <- X. apply Qmult_lt_compat_r; assumption. }
    now rewrite <- Zlt_Qlt in G.
  - assert (G : (inject_Z t <= inject_Z (n * b))%Q).
    { rewrite inject_Z_mult, <- X. apply Qmult_le_compat_r; lra. }
    now rewrite <- Zle_Qle in G.
Qed.

Lemma batches_is_ceiling_witness :
  exists s,
    compute_cost aztec 1000 256 gwei20 = Ok s /\
    exists n, get "batches" s = Some (VInt n) /\ (n - 1) * 256 < 1000 <= n * 256.
Proof.
  eexists. split; [vm_compute; reflexivity|].
  apply (batches_is_ceiling aztec 1000 256 gwei20);
    [lia | lia | vm_compute; reflexivity].
Defined.

(** X2: whatever the sizes, the batch count is never negative, never
    decreases when [tx_count] grows and never increases when [batch_size]
    grows (the rounding of the quotient is monotone). *)
Theorem batches_monotone p t1 t2 b1 b2 g s1 s2 :
  t1 <= t2 -> b2 <= b1 ->
  compute_cost p t1 b1 g = Ok s1 -> compute_cost p t2 b2 g = Ok s2 ->
  exists n1 n2,
    get "batches" s1 = Some (VInt n1) /\ get "batches" s2 = Some (VInt n2) /\
    0 <= n1 <= n2.
Proof.
  intros Ht Hb H1 H2.
  apply compute_cost_inv in H1 as (l1 & Hl1 & ->).
  apply compute_cost_inv in H2 as (l2 & Hl2 & ->).
  exists (batches l1), (batches l2).
  split; [apply get_batches|]. split; [apply get_batches|].
  pose proof (batches_spec _ _ _ _ _ Hl1) as [F1 ->].
  pose proof (batches_spec _ _ _ _ _ Hl2) as [F2 ->].
  apply compute_cost_locals_inv in Hl1 as (T1 & B1 & _).
  apply compute_cost_locals_inv in Hl2 as (T2 & B2 & _).
  split.
  - rewrite <- (Qceiling_Z 0). apply Qceiling_resp_le, magnitude_nonneg.
  - apply Qceiling_resp_le, round_mono; try assumption.
    + unfold Qlt. cbn [Qnum Qden]. lia.
    + unfold Qle. cbn [Qnum Qden]. rewrite !Z2Pos.id by lia. nia.
Qed.

Lemma batches_monotone_witness :
  exists s1 s2,
    compute_cost aztec 1000 512 gwei20 = Ok s1 /\
    compute_cost aztec 1001 256 gwei20 = Ok s2 /\
    exists n1 n2,
      get "batches" s1 = Some (VInt n1) /\ get "batches" s2 = Some (VInt n2) /\
      0 <= n1 <= n2.
Proof.
  do 2 eexists. split; [vm_compute; reflexivity|].
  split; [vm_compute; reflexivity|].
  apply (batches_monotone aztec 1000 1001 512 256 gwei20);
    [lia | lia | vm_compute; reflexivity | vm_compute; reflexivity].
Defined.

(** X3: the gas figures of a summary do not depend on the gas price: two
    calls that differ only in [gas_price_gwei] return the same [batches],
    [totalProofGas], [totalOverheadGas], [totalCalldataGas], [totalGas] and
    [perTxGas]. *)
Theorem gas_figures_ignore_gas_price p t b g1 g2 s1 s2 :
  compute_cost p t b g1 = Ok s1 -> compute_cost p t b g2 = Ok s2 ->
  forall k,
    In k ["batches"; "totalProofGas"; "totalOverheadGas"; "totalCalldataGas";
          "totalGas"; "perTxGas"] ->
    get k s1 = get k s2.
Proof.
  intros H1 H2.
  apply compute_cost_inv in H1 as (l1 & Hl1 & ->).
  apply compute_cost_inv in H2 as (l2 & Hl2 & ->).
  apply compute_cost_locals_inv in Hl1
    as (_ & _ & (q1 & Q1 & N1) & P1 & O1 & C1 & G1 & _ & _ & _ & D1 & _).
  apply compute_cost_locals_inv in Hl2
    as (_ & _ & (q2 & Q2 & N2) & P2 & O2 & C2 & G2 & _ & _ & _ & D2 & _).
  assert (B : batches l1 = batches l2) by congruence.
  assert (P : total_proof_gas l1 = total_proof_gas l2) by congruence.
  assert (O : total_overhead_gas l1 = total_overhead_gas l2) by congruence.
  assert (C : total_calldata_gas l1 = total_calldata_gas l2) by congruence.
  assert (G : total_gas l1 = total_gas l2) by congruence.
  assert (D : per_tx_gas l1 = per_tx_gas l2) by congruence.
  intros k Hk. cbn [In] in Hk.
  destruct Hk as [<- | [<- | [<- | [<- | [<- | [<- | []]]]]]].
  - now rewrite !get_batches, B.
  - now rewrite !get_totalProofGas, P.
  - now rewrite !get_totalOverheadGas, O.
  - now rewrite !get_totalCalldataGas, C.
  - now rewrite !get_totalGas, G.
  - now rewrite !get_perTxGas, D.
Qed.

Lemma gas_figures_ignore_gas_price_witness :
  exists s1 s2,
    compute_cost aztec 256 256 gwei20 = Ok s1 /\
    compute_cost aztec 256 256 gwei03 = Ok s2 /\
    get "totalGas" s1 = get "totalGas" s2.
Proof.
  do 2 eexists. split; [vm_compute; reflexivity|].
  split; [vm_compute; reflexivity|].
  apply (gas_figures_ignore_gas_price aztec 256 256 gwei20 gwei03);
    [vm_compute; reflexivity | vm_compute; reflexivity | ].
  cbn [In]. auto 10.
Defined.

(** X4: an integer gas price [n] with [|n| * 10^9 < 2^53] converts without
    error: [float(n)] is [n] and [wei_from_gwei] of it is exactly
    [n * 10^9]. *)
Theorem wei_from_gwei_integer_price n :
  Z.abs n * 1000000000 < 2 ^ 53 ->
  exists f,
    float_of_int n = Ok f /\ (value f == inject_Z n)%Q /\
    wei_from_gwei f = Ok (n * 1000000000).
Proof.
  intros Hn.
  assert (F : is_finite (round (n <? 0) (inject_Z (Z.abs n))) = true).
  { apply round_finite, pow2_big_Z; lia. }
  assert (E : float_of_int n = Ok (round (n <? 0) (inject_Z (Z.abs n))))
    by (apply finite_or_raise_finite, F).
  eexists. split; [exact E|]. split; [|now apply wei_from_gwei_int].
  rewrite value_round.
  destruct (Z.eq_dec n 0) as [-> | N0]; [reflexivity|].
  assert (K : 0 < Z.abs n < 2 ^ prec) by (unfold prec; lia).
  destruct (Z.ltb_spec n 0); rewrite (round_small_int _ (Z.abs n) K).
  - rewrite <- inject_Z_opp. now rewrite Z.abs_neq, Z.opp_involutive by lia.
  - now rewrite Z.abs_eq by lia.
Qed.

Lemma wei_from_gwei_integer_price_witness :
  exists f,
    float_of_int 20 = Ok f /\ (value f == inject_Z 20)%Q /\
    wei_from_gwei f = Ok (20 * 1000000000).
Proof. apply (wei_from_gwei_integer_price 20). reflexivity. Defined.

(** X5: the failures of [wei_from_gwei]: it raises the [ValueError] of
    [int(nan)] exactly for a NaN argument, [OverflowError] for an infinite
    one, nothing but these two exceptions, and it returns for every finite
    argument of magnitude below [2^993]. *)
Theorem wei_from_gwei_errors g :
  (wei_from_gwei g = Raise (ValueError "cannot convert float NaN to integer")
   <-> g = S754_nan) /\
  (is_finite g = false ->
   g = S754_nan \/
   wei_from_gwei g = Raise (OverflowError "cannot convert float infinity to integer")) /\
  (is_finite g = true -> (magnitude g < pow2 993)%Q ->
   exists w, wei_from_gwei g = Ok w) /\
  (forall e, wei_from_gwei g = Raise e ->
     e = ValueError "cannot convert float NaN to integer" \/
     e = OverflowError "cannot convert float infinity to integer").
Proof.
  split; [apply wei_from_gwei_nan|]. split; [|split].
  - destruct g; try discriminate; intros _; [right | left]; reflexivity.
  - intros F B. destruct (wei_from_gwei_finite g F B) as (w & H & _). eauto.
  - intros e. apply wei_from_gwei_raise.
Qed.

Lemma wei_from_gwei_errors_witness :
  wei_from_gwei S754_nan =
    Raise (ValueError "cannot convert float NaN to integer") /\
  wei_from_gwei (S754_infinity true) =
    Raise (OverflowError "cannot convert float infinity to integer") /\
  wei_from_gwei gwei1e300 =
    Raise (OverflowError "cannot convert float infinity to integer") /\
  exists w, wei_from_gwei gwei03 = Ok w.
Proof.
  destruct (wei_from_gwei_errors S754_nan) as ([_ N] & _).
  destruct (wei_from_gwei_errors (S754_infinity true)) as (_ & I & _).
  destruct (wei_from_gwei_errors gwei03) as (_ & _ & R & _).
  split; [apply N; reflexivity|].
  split; [destruct (I eq_refl) as [X | X]; [discriminate X | exact X]|].
  split; [vm_compute; reflexivity|].
  apply R; reflexivity.
Defined.

(** X6: in every summary, [totalFeeEth] is finite and, scaled by [10^18],
    within [|w| * 2^-53 + 10^18 * 2^-1075] of the fee in wei
    [w = totalGas * wei_from_gwei(gas_price_gwei)]: one rounding of one
    division. *)
Theorem total_fee_eth_accuracy p t b g s :
  compute_cost p t b g = Ok s ->
  exists G w fe,
    get "totalGas" s = Some (VInt G) /\ wei_from_gwei g = Ok w /\
    get "totalFeeEth" s = Some (VFloat fe) /\ is_finite fe = true /\
    (Qabs (value fe * inject_Z (10 ^ 18) - inject_Z (G * w))
     <= Qabs (inject_Z (G * w)) * pow2 (-53)
        + inject_Z (10 ^ 18) * pow2 (-1075))%Q.
Proof.
  intros H. apply compute_cost_inv in H as (l & Hl & ->).
  apply compute_cost_locals_inv in Hl
    as (_ & _ & _ & _ & _ & _ & _ & W & FW & FE & _).
  exists (total_gas l), (gas_price_wei l), (total_fee_eth l).
  split; [apply get_totalGas|]. split; [exact W|].
  split; [apply get_totalFeeEth|]. unfold eth_from_wei in FE.
  split; [exact (int_truediv_finite _ _ _ FE)|].
  rewrite <- FW. apply int_truediv_error; [reflexivity | exact FE].
Qed.

Lemma total_fee_eth_accuracy_witness :
  exists G w fe,
    get "totalGas" aztec_summary = Some (VInt G) /\ wei_from_gwei gwei20 = Ok w /\
    get "totalFeeEth" aztec_summary = Some (VFloat fe) /\ is_finite fe = true /\
    (Qabs (value fe * inject_Z (10 ^ 18) - inject_Z (G * w))
     <= Qabs (inject_Z (G * w)) * pow2 (-53)
        + inject_Z (10 ^ 18) * pow2 (-1075))%Q.
Proof.
  apply (total_fee_eth_accuracy aztec 256 256 gwei20 aztec_summary).
  apply aztec_default_run.
Defined.

(** X7: [eth_from_wei] returns for every amount below [2^1023] in absolute
    value and is monotone there: a larger amount in wei never gives a
    smaller amount in ETH. *)
Theorem eth_from_wei_monotone x y :
  Z.abs x < 2 ^ 1023 -> Z.abs y < 2 ^ 1023 -> x <= y ->
  exists fx fy,
    eth_from_wei x = Ok fx /\ eth_from_wei y = Ok fy /\
    (value fx <= value fy)%Q.
Proof.
  intros Hx Hy L. unfold eth_from_wei.
  destruct (int_truediv_total x 1000000000000000000 ltac:(lia) Hx) as (fx & Ex & _).
  destruct (int_truediv_total y 1000000000000000000 ltac:(lia) Hy) as (fy & Ey & _).
  exists fx, fy. split; [exact Ex|]. split; [exact Ey|].
  apply (int_truediv_mono x y 1000000000000000000); try assumption. reflexivity.
Qed.

Lemma eth_from_wei_monotone_witness :
  exists fx fy,
    eth_from_wei (-1) = Ok fx /\ eth_from_wei 20838400000000000 = Ok fy /\
    (value fx <= value fy)%Q.
Proof.
  apply (eth_from_wei_monotone (-1) 20838400000000000); reflexivity || lia.
Defined.

(** X8: of a command line that [parse_args] accepts, [--list-profiles] is
    looked at first: if the parsed [list_profiles] flag is set, [main]
    prints the heading, one line per registry profile in registry order, an
    empty line and the hint, and returns normally, whatever the other parsed
    values are (a non-positive count, a custom profile without its options
    and a NaN gas price are not looked at).  If [parse_args] itself leaves
    through an exception, as argparse does with status 2 when [tx_count] is
    missing, even next to [--list-profiles], [main] leaves the same way and
    lists nothing. *)
Theorem list_profiles_precedence parse_args out0 :
  (forall args out,
     parse_args out0 = (Ok args, out) -> arg_list_profiles args = true ->
     main parse_args out0 =
       (Ok tt,
        (out ++ Line "Available profiles:"
             :: map (fun kp => Line ("- " ++ fst kp ++ ": " ++ name (snd kp)))
                  PROFILES
             ++ [Line EmptyString;
                 Line "Use --profile with one of the keys above, or 'custom' to provide your own parameters."])%list)) /\
  (forall e out,
     parse_args out0 = (Raise e, out) ->
     main parse_args out0 = (Raise e, out)).
Proof.
  split.
  - intros args out P L. rewrite (main_list parse_args args out0 out P L).
    apply list_profiles_out.
  - intros e out P. now apply main_parse_error.
Qed.

Lemma list_profiles_precedence_witness :
  run (ret list_args) =
    ([Line "Available profiles:";
      Line "- aztec: Aztec-style zk rollup";
      Line "- zama: Zama-style FHE + rollup hybrid";
      Line "- soundness: Soundness-first research rollup";
      Line EmptyString;
      Line "Use --profile with one of the keys above, or 'custom' to provide your own parameters."],
     0) /\
  run (sys_exit 2) = ([], 2).
Proof.
  split.
  - unfold run.
    rewrite (proj1 (list_profiles_precedence (ret list_args) [])
               list_args [] eq_refl eq_refl).
    reflexivity.
  - unfold run.
    rewrite (proj2 (list_profiles_precedence (sys_exit 2) [])
               (SystemExit 2) [] eq_refl).
    reflexivity.
Defined.

(** X9: when [main] returns normally on a parsed command line without
    [--list-profiles], it has printed exactly one report, complete: the
    summary [compute_cost] returned for the selected profile (a registry
    profile, or the custom one built from the options), as JSON with
    [--json] and as text otherwise; the summary's [profile] is the
    [--profile] argument, and both counts are positive. *)
Theorem main_success_report parse_args args out0 out out' :
  parse_args out0 = (Ok args, out) ->
  arg_list_profiles args = false ->
  main parse_args out0 = (Ok tt, out') ->
  exists p s,
    (get (arg_profile args) PROFILES = Some p \/
     (arg_profile args = "custom" /\
      build_custom_profile args out = (Ok p, out))) /\
    compute_cost p (arg_tx_count args) (arg_batch_size args)
      (arg_gas_price_gwei args) = Ok s /\
    out' = (out ++ [if arg_json args then JsonReport s else HumanReport s])%list /\
    get "profile" s = Some (VStr (arg_profile args)) /\
    0 < arg_tx_count args /\ 0 < arg_batch_size args.
Proof.
  intros P L H.
  destruct (main_cases parse_args args out0 out P L)
    as [(p & S & K) | [(_ & _ & M) | (_ & _ & M)]];
    [| rewrite M in H; discriminate | rewrite M in H; discriminate].
  rewrite (main_selected parse_args args p out0 out P L S) in H.
  destruct (compute_cost p (arg_tx_count args) (arg_batch_size args)
              (arg_gas_price_gwei args)) as [s | e] eqn:C.
  2: { destruct e; discriminate. }
  exists p, s. split; [exact S|]. split; [exact C|].
  apply compute_cost_inv in C as (l & Hl & ->).
  split.
  - destruct (arg_json args).
    + destruct (print_json_cases (summary_dict p (arg_tx_count args)
                  (arg_batch_size args) (arg_gas_price_gwei args) l) out)
        as [E | E]; rewrite E in H; [now inversion H | discriminate].
    + destruct (print_human_summary p (arg_tx_count args) (arg_batch_size args)
                  (arg_gas_price_gwei args) l out)
        as [E | (m & _ & E)]; rewrite E in H; [now inversion H | discriminate].
  - split; [now rewrite get_profile, K|].
    apply compute_cost_locals_inv in Hl as (T & B & _). now split.
Qed.

Lemma main_success_report_witness :
  exists p s,
    (get (arg_profile custom_args) PROFILES = Some p \/
     (arg_profile custom_args = "custom" /\
      build_custom_profile custom_args [] = (Ok p, []))) /\
    compute_cost p (arg_tx_count custom_args) (arg_batch_size custom_args)
      (arg_gas_price_gwei custom_args) = Ok s /\
    [HumanReport custom_summary] =
      ([] ++ [if arg_json custom_args then JsonReport s else HumanReport s])%list /\
    get "profile" s = Some (VStr (arg_profile custom_args)) /\
    0 < arg_tx_count custom_args /\ 0 < arg_batch_size custom_args.
Proof.
  apply (main_success_report (ret custom_args) custom_args [] []);
    [reflexivity | reflexivity |].
  vm_compute. reflexivity.
Defined.

(** X10: how a run of [main] ends.  If [parse_args] leaves through an
    exception, so does [main].  On a parsed command line without
    [--list-profiles] there are five ways: the complete report is printed
    and [main] returns; one line starting with the cross mark is printed
    and [main] calls [sys.exit(1)]; an [OverflowError] of [compute_cost]
    leaves uncaught with nothing printed (both counts are then positive);
    the profile is neither [custom] nor in the registry and the lookup
    raises [KeyError] (a case argparse's [choices] keep from a real command
    line); or [compute_cost] returned a summary holding an [int] of more
    than 4300 digits and printing it raises the [ValueError] of the
    int-to-str limit, uncaught, with nothing printed under [--json] and
    between 4 and 17 lines of the report printed otherwise. *)
Theorem main_outcomes parse_args out0 :
  (forall e out,
     parse_args out0 = (Raise e, out) ->
     main parse_args out0 = (Raise e, out)) /\
  (forall args out,
     parse_args out0 = (Ok args, out) -> arg_list_profiles args = false ->
     (exists s,
        main parse_args out0 =
          (Ok tt, (out ++ [if arg_json args then JsonReport s
                           else HumanReport s])%list)) \/
     (exists msg,
        main parse_args out0 =
          (Raise (SystemExit 1), (out ++ [Line (cross_mark ++ " " ++ msg)])%list)) \/
     (exists msg,
        main parse_args out0 = (Raise (OverflowError msg), out) /\
        0 < arg_tx_count args /\ 0 < arg_batch_size args) \/
     (main parse_args out0 = (Raise (KeyError (arg_profile args)), out) /\
      arg_profile args <> "custom" /\ get (arg_profile args) PROFILES = None) \/
     (exists p s,
        compute_cost p (arg_tx_count args) (arg_batch_size args)
          (arg_gas_price_gwei args) = Ok s /\
        ((arg_json args = true /\
          main parse_args out0 = (Raise int_str_error, out)) \/
         (arg_json args = false /\
          exists n, (4 <= n <= 17)%nat /\
            main parse_args out0 =
              (Raise int_str_error, (out ++ [HumanReportLines s n])%list))))).
Proof.
  split; [intros e out P; now apply main_parse_error|].
  intros args out P L.
  destruct (main_cases parse_args args out0 out P L)
    as [(p & S & _) | [(_ & _ & M) | (C & G & M)]].
  - rewrite (main_selected parse_args args p out0 out P L S).
    destruct (compute_cost p (arg_tx_count args) (arg_batch_size args)
                (arg_gas_price_gwei args)) as [s | e] eqn:E.
    + pose proof E as E'. apply compute_cost_inv in E' as (l & _ & ->).
      destruct (arg_json args) eqn:J.
      * destruct (print_json_cases (summary_dict p (arg_tx_count args)
                    (arg_batch_size args) (arg_gas_price_gwei args) l) out)
          as [R | R]; rewrite R.
        -- left. eexists. reflexivity.
        -- do 4 right. do 2 eexists. split; [exact E|]. left. now split.
      * destruct (print_human_summary p (arg_tx_count args) (arg_batch_size args)
                    (arg_gas_price_gwei args) l out)
          as [R | (m & B & R)]; rewrite R.
        -- left. eexists. reflexivity.
        -- do 4 right. do 2 eexists. split; [exact E|]. right.
           split; [reflexivity|]. now exists m.
    + apply compute_cost_raise in E.
      destruct (Z.le_gt_cases (arg_tx_count args) 0) as [T | T].
      { rewrite compute_cost_locals_nonpositive_tx in E by exact T.
        inversion E. right. left. eauto. }
      destruct (Z.le_gt_cases (arg_batch_size args) 0) as [B | B].
      { rewrite compute_cost_locals_nonpositive_batch in E by assumption.
        inversion E. right. left. eauto. }
      destruct (compute_cost_locals_raise _ _ _ _ _ T B E) as [-> | [msg ->]].
      * right. left. eauto.
      * right. right. left. exists msg. now split.
  - right. left. rewrite M.
    exists ("Missing required options for custom profile: "
            ++ String.concat ", " (missing_options args)).
    reflexivity.
  - right. right. right. left. now split.
Qed.

Lemma main_outcomes_witness :
  main (ret default_args) [] = (Ok tt, [HumanReport aztec_summary]) /\
  main (ret custom_missing_args) [] =
    (Raise (SystemExit 1),
     [Line (cross_mark ++ " Missing required options for custom profile: "
            ++ "--proof-gas, --overhead-gas-per-batch")]) /\
  main (ret overflow_args) [] =
    (Raise (OverflowError "cannot convert float infinity to integer"), []) /\
  main (ret long_int_args) [] =
    (Raise int_str_error, [HumanReportLines long_int_summary 14]) /\
  main (sys_exit 2) [] = (Raise (SystemExit 2), []).
Proof.
  split; [vm_compute; reflexivity|]. split; [vm_compute; reflexivity|].
  split; [vm_compute; reflexivity|]. split; [vm_compute; reflexivity|].
  apply (proj1 (main_outcomes (sys_exit 2) [])). reflexivity.
Defined.

(** X11: for [tx_count] below [2^53] and a total fee below [2^1023] ETH,
    [perTxFeeEth] is finite and, times [tx_count], within
    [|totalFeeEth| * 2^-53 + tx_count * 2^-1075] of [totalFeeEth]. *)
Theorem per_tx_fee_accuracy p t b g s :
  t < 2 ^ 53 -> compute_cost p t b g = Ok s ->
  exists fe pf,
    get "totalFeeEth" s = Some (VFloat fe) /\
    get "perTxFeeEth" s = Some (VFloat pf) /\
    ((magnitude fe < pow2 1023)%Q ->
     is_finite pf = true /\
     (Qabs (value pf * inject_Z t - value fe)
      <= Qabs (value fe) * pow2 (-53) + inject_Z t * pow2 (-1075))%Q).
Proof.
  intros Ht H. apply compute_cost_inv in H as (l & Hl & ->).
  apply compute_cost_locals_inv in Hl
    as (T & _ & _ & _ & _ & _ & _ & _ & _ & FE & _ & PF).
  exists (total_fee_eth l), (per_tx_fee_eth l).
  split; [apply get_totalFeeEth|]. split; [apply get_perTxFeeEth|].
  intros B. apply (float_truediv_int_error (total_fee_eth l) t); try assumption.
  - lia.
  - unfold eth_from_wei in FE. exact (int_truediv_finite _ _ _ FE).
Qed.

Lemma per_tx_fee_accuracy_witness :
  exists fe pf,
    get "totalFeeEth" aztec_summary = Some (VFloat fe) /\
    get "perTxFeeEth" aztec_summary = Some (VFloat pf) /\
    ((magnitude fe < pow2 1023)%Q ->
     is_finite pf = true /\
     (Qabs (value pf * inject_Z 256 - value fe)
      <= Qabs (value fe) * pow2 (-53) + inject_Z 256 * pow2 (-1075))%Q).
Proof.
  apply (per_tx_fee_accuracy aztec 256 256 gwei20 aztec_summary);
    [reflexivity | apply aztec_default_run].
Defined.

(** X12: a batch size at least the transaction count (and at most [2^1074])
    gives exactly one batch, so [totalGas] is
    [proof_gas + overhead_gas_per_batch + tx_count * calldata_gas_per_tx]. *)
Theorem single_batch p t b g s :
  t <= b -> b <= 2 ^ 1074 -> compute_cost p t b g = Ok s ->
  get "batches" s = Some (VInt 1) /\
  get "totalGas" s =
    Some (VInt (proof_gas p + overhead_gas_per_batch p
                + t * calldata_gas_per_tx p)).
Proof.
  intros Htb Hb H. apply compute_cost_inv in H as (l & Hl & ->).
  pose proof (total_gas_eq _ _ _ _ _ Hl) as G.
  pose proof (batches_spec _ _ _ _ _ Hl) as [F N].
  apply compute_cost_locals_inv in Hl as (T & B & _).
  set (x := (t # Z.to_pos b)%Q) in *.
  assert (X0 : (0 < x)%Q) by (unfold x, Qlt; cbn [Qnum Qden]; lia).
  assert (X1 : (x <= 1)%Q).
  { unfold x, Qle. cbn [Qnum Qden]. rewrite Z2Pos.id by lia. lia. }
  assert (Xm : (pow2 emin <= x)%Q).
  { unfold x. rewrite Qmake_to_pos by lia.
    apply Qle_shift_div_l; [rewrite <- (Zlt_Qlt 0); lia|].
    apply Qle_trans with (pow2 emin * inject_Z (2 ^ 1074))%Q.
    - apply Qmult_le_l; [apply pow2_pos | now rewrite <- Zle_Qle].
    - apply Qle_trans with 1%Q; [vm_compute; discriminate|].
      rewrite <- (Zle_Qle 1). lia. }
  assert (E : batches l = 1).
  { rewrite N. apply Z.le_antisymm.
    - rewrite <- (Qceiling_Z 1). apply Qceiling_resp_le.
      rewrite <- (round_small_int false 1) by (unfold prec; lia).
      apply round_mono; try assumption.
      apply round_finite. reflexivity.
    - pose proof (round_nonzero false x Xm) as Z0.
      destruct (round_finite_nonzero_form _ _ F Z0) as (m & e & R).
      rewrite R. cbn [magnitude].
      assert (P : (0 < inject_Z (Z.pos m) * pow2 e)%Q)
        by (apply Qmult_lt_0_compat; [reflexivity | apply pow2_pos]).
      pose proof (Qle_ceiling (inject_Z (Z.pos m) * pow2 e)) as C.
      assert (C' : (inject_Z 0 < inject_Z (Qceiling (inject_Z (Z.pos m) * pow2 e)))%Q)
        by (change (inject_Z 0) with 0%Q; lra).
      rewrite <- Zlt_Qlt in C'. lia. }
  split; [now rewrite get_batches, E|].
  rewrite get_totalGas, G, E. do 2 f_equal. lia.
Qed.

Lemma single_batch_witness :
  get "batches" aztec_summary = Some (VInt 1) /\
  get "totalGas" aztec_summary =
    Some (VInt (proof_gas aztec + overhead_gas_per_batch aztec
                + 256 * calldata_gas_per_tx aztec)).
Proof.
  apply (single_batch aztec 256 256 gwei20 aztec_summary);
    [lia | lia | apply aztec_default_run].
Defined.

End Extras.
